(** * Order Assembly Service: the request pipeline of [server.js]

    A shallow embedding of the Express service (authentication middleware,
    payload validation, catalog enrichment, queue publication, response
    shaping and the error-handling middleware), followed by the properties
    of the pipeline.

    JavaScript values are an inductive type; thrown values are a small
    tagged type; every call that leaves the process (clock, catalog lookup,
    identifier generator, queue transport) is an operation of an abstract
    runtime that threads an explicit world and is recorded in a trace. *)

From Stdlib Require Import List String Ascii Bool Arith ZArith QArith Lia.
From Stdlib Require Import DecimalString.
Import ListNotations.

Local Open Scope string_scope.
Local Open Scope Z_scope.

(** ** JavaScript values *)

Local Set Warnings "-register-all".

(** A JavaScript number: an IEEE double, seen as NaN, an infinity or a
    finite rational (every finite double is one). *)
Inductive number : Type :=
| NaN
| Infinity (negative : bool)
| Fin (q : Q).

Inductive value : Type :=
| VUndefined
| VNull
| VBool (b : bool)
| VNum (n : number)
| VStr (s : string)
| VArr (elems : list value)
| VObj (fields : list (string * value)).

(** [x <= 0] on a number: false on NaN. *)
Definition le_zero (n : number) : bool :=
  match n with
  | NaN => false
  | Infinity negative => negative
  | Fin q => Qle_bool q 0
  end.

(** ToBoolean. *)
Definition truthy (v : value) : bool :=
  match v with
  | VUndefined | VNull => false
  | VBool b => b
  | VNum NaN => false
  | VNum (Infinity _) => true
  | VNum (Fin q) => negb (Qeq_bool q 0)
  | VStr s => negb (String.eqb s "")
  | VArr _ | VObj _ => true
  end.

Definition typeof_string (v : value) : bool :=
  match v with VStr _ => true | _ => false end.

Definition typeof_number (v : value) : bool :=
  match v with VNum _ => true | _ => false end.

Definition isArray (v : value) : bool :=
  match v with VArr _ => true | _ => false end.

(** Reading a property of [undefined] or [null] throws a TypeError. *)
Definition nullish (v : value) : bool :=
  match v with VUndefined | VNull => true | _ => false end.

Fixpoint lookup (p : string) (fields : list (string * value)) : option value :=
  match fields with
  | [] => None
  | (k, v) :: rest => if String.eqb k p then Some v else lookup p rest
  end.

(** [v.p] on a value that is neither [undefined] nor [null], for the
    property names the service reads on request data ([order_id],
    [customer_id], [items], [order_ts], [sku], [quantity]): none of them is
    inherited from a prototype, so only an object's own fields answer.  An
    object holds one binding per key. *)
Definition get (v : value) (p : string) : value :=
  match v with
  | VObj fields => match lookup p fields with Some x => x | None => VUndefined end
  | _ => VUndefined
  end.

(** Decimal rendering of an array index inside a template literal. *)
Definition index_string (i : nat) : string :=
  NilZero.string_of_uint (Nat.to_uint i).

(** ** Thrown values *)

(** What the service throws and catches: an engine error (a TypeError; it
    has a [message] and neither [status] nor [details]) or one of the plain
    objects [{ status, message, details }] thrown by the enrichment and
    publication steps. *)
Inductive thrown : Type :=
| TypeError (message : string)
| Raised (status : Z) (message : string) (details : string).

Definition error_message (e : thrown) : value :=
  match e with
  | TypeError m => VStr m
  | Raised _ m _ => VStr m
  end.

Definition error_details (e : thrown) : value :=
  match e with
  | TypeError _ => VUndefined
  | Raised _ _ d => VStr d
  end.

(** [error.status || fallback] *)
Definition status_or (e : thrown) (fallback : Z) : Z :=
  match e with
  | TypeError _ => fallback
  | Raised s _ _ => if s =? 0 then fallback else s
  end.

(** ** HTTP requests and responses *)

(** What [express.json()] makes of the request body: a parsed document in
    [req.body], or a parse error handed to [next(err)]. *)
Inductive parsed_body : Type :=
| Parsed (doc : value)
| ParseError (message : string).

Record request : Type := {
  x_api_key : option string;      (* req.headers['x-api-key'] *)
  req_body : parsed_body
}.

Record response : Type := {
  status : Z;
  body : value
}.

Definition json (st : Z) (fields : list (string * value)) : response :=
  {| status := st; body := VObj fields |}.

(** ** The API key table *)

Record key_record : Type := {
  name : string;
  createdAt : Z;                  (* milliseconds since the epoch *)
  expiresAt : option Z
}.

(** new Date('2025-01-01'), new Date('2024-01-01'), new Date('2026-02-28') *)
Definition date_2025_01_01 : Z := 1735689600000.
Definition date_2024_01_01 : Z := 1704067200000.
Definition date_2026_02_28 : Z := 1772236800000.

Definition VALID_API_KEYS : list (string * key_record) :=
  [ ("sk-test-valid-key-123456789",
     {| name := "Test Client"; createdAt := date_2025_01_01; expiresAt := None |});
    ("sk-test-limited-key-987654321",
     {| name := "Limited Client"; createdAt := date_2024_01_01;
        expiresAt := Some date_2026_02_28 |}) ].

(** [VALID_API_KEYS] is an object literal, so a property read that finds no
    own entry continues on [Object.prototype], whose members are functions
    (or, for [__proto__], the prototype object itself). *)
Definition Object_prototype_members : list string :=
  [ "constructor"; "hasOwnProperty"; "isPrototypeOf"; "propertyIsEnumerable";
    "toLocaleString"; "toString"; "valueOf"; "__proto__";
    "__defineGetter__"; "__defineSetter__"; "__lookupGetter__";
    "__lookupSetter__" ].

Inductive key_data : Type :=
| OwnKey (r : key_record)
| Inherited (member : string).

Fixpoint own_key (k : string) (table : list (string * key_record)) : option key_record :=
  match table with
  | [] => None
  | (k', r) :: rest => if String.eqb k' k then Some r else own_key k rest
  end.

Definition mem_string (s : string) (l : list string) : bool :=
  existsb (String.eqb s) l.

(** [VALID_API_KEYS[apiKey]]; [None] is [undefined]. *)
Definition VALID_API_KEYS_get (apiKey : string) : option key_data :=
  match own_key apiKey VALID_API_KEYS with
  | Some r => Some (OwnKey r)
  | None =>
      if mem_string apiKey Object_prototype_members
      then Some (Inherited apiKey) else None
  end.

(** [keyData.expiresAt]: a Date, or a falsy value ([null] on a record
    without expiry, [undefined] on an inherited member). *)
Definition keyData_expiresAt (d : key_data) : option Z :=
  match d with
  | OwnKey r => expiresAt r
  | Inherited _ => None
  end.

(** ** The runtime the service runs on *)

(** Parameters of [sqs.sendMessage]. *)
Record message_attribute : Type := {
  StringValue : value;
  DataType : string
}.

Record send_params : Type := {
  QueueUrl : string;
  MessageBody : string;
  MessageAttributes : list (string * message_attribute)
}.

(** Everything outside [server.js]: the engine's built-ins, the process
    environment and the three collaborators.  Calls that leave the process
    read and change a [World]. *)
Record Runtime : Type := {
  World : Type;
  (** [new Date()], in milliseconds since the epoch *)
  Date_now : World -> Z * World;
  (** [await axios.get(url, { timeout })]: [inr response.data], or
      [inl error.message] when the promise rejects *)
  axios_get : string -> Z -> World -> (string + value) * World;
  (** [uuidv4()] *)
  uuidv4 : World -> string * World;
  (** [await sqs.sendMessage(params).promise()]: [inr result.MessageId], or
      [inl error.message] *)
  sqs_sendMessage : send_params -> World -> (string + string) * World;
  (** [!isNaN(new Date(s).getTime())] *)
  Date_valid : string -> bool;
  (** [date.toISOString()] *)
  toISOString : Z -> string;
  JSON_stringify : value -> string;
  (** ToString of a value that is not a string, in a template literal *)
  ToString_other : value -> string;
  (** the engine's message for reading property [p] of [undefined]/[null] *)
  TypeError_message : value -> string -> string;
  (** [process.env.CARD_CATALOG_URL], [process.env.QUEUE_URL] *)
  env_CARD_CATALOG_URL : option string;
  env_QUEUE_URL : option string
}.

(** What a request did outside the process, in order. *)
Inductive event : Type :=
| EvNow (t : Z)
| EvCatalogGet (url : string) (timeout : Z) (r : string + value)
| EvUuid (id : string)
| EvSend (params : send_params) (r : string + string).

Definition is_send (e : event) : bool :=
  match e with EvSend _ _ => true | _ => false end.

Definition is_uuid (e : event) : bool :=
  match e with EvUuid _ => true | _ => false end.

Definition lookup_ok (e : event) : Prop :=
  match e with EvCatalogGet _ _ (inl _) => False | _ => True end.

Definition send_ok (e : event) : Prop :=
  match e with EvSend _ (inl _) => False | _ => True end.

(** [process.env.X || fallback] *)
Definition env_or (x : option string) (fallback : string) : string :=
  match x with
  | Some s => if String.eqb s "" then fallback else s
  | None => fallback
  end.

Section Service.

Variable R : Runtime.

(** A computation: reads and changes the world, and records its calls. *)
Definition M (A : Type) : Type := World R -> A * World R * list event.

Definition ret {A} (a : A) : M A := fun w => (a, w, []).

Definition bind {A B} (m : M A) (k : A -> M B) : M B :=
  fun w =>
    let '(a, w1, t1) := m w in
    let '(b, w2, t2) := k a w1 in
    (b, w2, (t1 ++ t2)%list).

Notation "x <- m ;; k" := (bind m (fun x => k))
  (at level 61, m at next level, right associativity).

Definition new_Date : M Z :=
  fun w => let '(t, w') := Date_now R w in (t, w', [EvNow t]).

Definition call_axios_get (url : string) (timeout : Z) : M (string + value) :=
  fun w => let '(r, w') := axios_get R url timeout w in
           (r, w', [EvCatalogGet url timeout r]).

Definition call_uuidv4 : M string :=
  fun w => let '(id, w') := uuidv4 R w in (id, w', [EvUuid id]).

Definition call_sendMessage (p : send_params) : M (string + string) :=
  fun w => let '(r, w') := sqs_sendMessage R p w in (r, w', [EvSend p r]).

Definition QUEUE_URL : string :=
  env_or (env_QUEUE_URL R) "http://localhost:4566/000000000000/assembled-orders".

Definition CARD_CATALOG_BASE_URL : string :=
  env_or (env_CARD_CATALOG_URL R) "http://localhost:8080".

(** [`${v}`].  The conversion of a value that is not a string is the
    runtime's; it is total here, so a conversion that throws (an object
    whose [toString] is not callable) is not represented.  After
    validation every [sku] that reaches a template is a string. *)
Definition ToString (v : value) : string :=
  match v with VStr s => s | _ => ToString_other R v end.

(** The values whose conversion by a template literal cannot throw:
    everything but objects and arrays, whose conversion calls their
    [toString]. *)
Definition primitive (v : value) : bool :=
  match v with VObj _ | VArr _ => false | _ => true end.

Definition typeError_reading (v : value) (p : string) : thrown :=
  TypeError (TypeError_message R v p).

(** *** API key authentication middleware *)

Inductive auth_result : Type :=
| Respond (r : response)        (* return res.status(401).json(...) *)
| Next (keyData : key_data).    (* req.apiKeyInfo = keyData; next() *)

Definition unauthorized (details : string) : response :=
  json 401 [ ("error", VStr "Unauthorized"); ("details", VStr details) ].

Definition authenticateApiKey (apiKey : option string) : M auth_result :=
  match apiKey with
  | None => ret (Respond (unauthorized "API key is required. Provide it in the X-API-Key header."))
  | Some k =>
      if String.eqb k ""
      then ret (Respond (unauthorized "API key is required. Provide it in the X-API-Key header."))
      else
        match VALID_API_KEYS_get k with
        | None => ret (Respond (unauthorized "Invalid API key provided."))
        | Some keyData =>
            match keyData_expiresAt keyData with
            | None => ret (Next keyData)
            | Some expires =>
                now <- new_Date ;;
                if expires <? now
                then ret (Respond (unauthorized "API key has expired."))
                else ret (Next keyData)
            end
        end
  end.

(** *** Payload validation *)

Definition push (errors : list string) (e : string) : list string :=
  (errors ++ [e])%list.

Definition sku_message (index : nat) : string :=
  "items[" ++ index_string index ++ "].sku is required and must be a string".

Definition quantity_message (index : nat) : string :=
  "items[" ++ index_string index ++ "].quantity must be a number greater than 0".

(** [typeof q !== 'number' || q <= 0] *)
Definition quantity_rejected (q : value) : bool :=
  negb (typeof_number q) ||
  match q with VNum n => le_zero n | _ => false end.

(** [!s || typeof s !== 'string'] *)
Definition string_rejected (s : value) : bool :=
  negb (truthy s) || negb (typeof_string s).

(** The body of the [forEach] callback, on an item that is not nullish. *)
Definition validate_item (item : value) (index : nat) (errors : list string)
    : list string :=
  let errors :=
    if string_rejected (get item "sku")
    then push errors (sku_message index) else errors in
  let errors :=
    if quantity_rejected (get item "quantity")
    then push errors (quantity_message index) else errors in
  errors.

(** [payload.items.forEach((item, index) => ...)]; reading [item.sku] on a
    nullish element throws out of the loop. *)
Fixpoint validate_items (items : list value) (index : nat) (errors : list string)
    : thrown + list string :=
  match items with
  | [] => inr errors
  | item :: rest =>
      if nullish item
      then inl (typeError_reading item "sku")
      else validate_items rest (S index) (validate_item item index errors)
  end.

(** [!items || !Array.isArray(items) || items.length === 0] *)
Definition items_rejected (items : value) : bool :=
  negb (truthy items) || negb (isArray items) ||
  match items with VArr l => (List.length l =? 0)%nat | _ => false end.

Definition validate_order_ts (order_ts : value) (errors : list string) : list string :=
  if string_rejected order_ts
  then push errors "order_ts is required and must be a valid ISO 8601 timestamp"
  else
    match order_ts with
    | VStr s =>
        if negb (Date_valid R s)
        then push errors "order_ts must be a valid ISO 8601 timestamp"
        else errors
    | _ => errors
    end.

Definition validateOrderPayload (payload : value) : thrown + list string :=
  if nullish payload
  then inl (typeError_reading payload "order_id")
  else
    let errors := [] in
    let errors :=
      if string_rejected (get payload "order_id")
      then push errors "order_id is required and must be a string" else errors in
    let errors :=
      if string_rejected (get payload "customer_id")
      then push errors "customer_id is required and must be a string" else errors in
    let errors :=
      if items_rejected (get payload "items")
      then push errors "items is required and must be a non-empty array" else errors in
    let after_items :=
      match get payload "items" with
      | VArr l => validate_items l 0%nat errors
      | _ => inr errors
      end in
    match after_items with
    | inl e => inl e
    | inr errors => inr (validate_order_ts (get payload "order_ts") errors)
    end.

(** *** Catalog enrichment *)

Definition catalog_url (sku : value) : string :=
  CARD_CATALOG_BASE_URL ++ "/catalog/sku/" ++ ToString sku.

Definition enrichment_message (sku : value) : string :=
  "Failed to enrich item with SKU " ++ ToString sku.

(** [{ sku: item.sku, quantity: item.quantity, metadata: response.data }] *)
Definition enriched_item (item metadata : value) : value :=
  VObj [ ("sku", get item "sku"); ("quantity", get item "quantity");
         ("metadata", metadata) ].

(** The [for (const item of items)] loop.  On a nullish item the template
    literal in the [try] block throws a TypeError, and so does the one in
    the [catch] block: that TypeError leaves the function. *)
Fixpoint enrich_loop (items : list value) (enrichedItems : list value)
    : M (thrown + list value) :=
  match items with
  | [] => ret (inr enrichedItems)
  | item :: rest =>
      if nullish item
      then ret (inl (typeError_reading item "sku"))
      else
        r <- call_axios_get (catalog_url (get item "sku")) 5000 ;;
        match r with
        | inr data =>
            enrich_loop rest (enrichedItems ++ [enriched_item item data])%list
        | inl cause =>
            ret (inl (Raised 502 (enrichment_message (get item "sku")) cause))
        end
  end.

(** What [for ... of] iterates over: the elements of an array, the
    characters of a string; anything else is not iterable. *)
Definition iterate (v : value) : thrown + list value :=
  match v with
  | VArr l => inr l
  | VStr s => inr (map (fun c => VStr (String c "")) (list_ascii_of_string s))
  | _ => inl (TypeError "items is not iterable")
  end.

Definition enrichOrderWithMetadata (items : value) : M (thrown + list value) :=
  match iterate items with
  | inl e => ret (inl e)
  | inr l => enrich_loop l []
  end.

(** *** Queue publication *)

Definition publish_params (order : value) : send_params :=
  {| QueueUrl := QUEUE_URL;
     MessageBody := JSON_stringify R order;
     MessageAttributes :=
       [ ("order_id", {| StringValue := get order "order_id"; DataType := "String" |});
         ("customer_id", {| StringValue := get order "customer_id"; DataType := "String" |}) ] |}.

Definition publish_failure (cause : string) : thrown :=
  Raised 503 "Failed to publish order to queue" cause.

(** Returns [result.MessageId].  Everything is inside the [try]: a
    TypeError raised while building [params] is rethrown as the 503
    object as well. *)
Definition publishToSQS (order : value) : M (thrown + string) :=
  if nullish order
  then ret (inl (publish_failure (TypeError_message R order "order_id")))
  else
    r <- call_sendMessage (publish_params order) ;;
    match r with
    | inr MessageId => ret (inr MessageId)
    | inl cause => ret (inl (publish_failure cause))
    end.

(** *** POST /orders/assemble *)

Definition error_response (error : thrown) (fallback : Z) : response :=
  json (status_or error fallback)
    [ ("error", error_message error); ("details", error_details error) ].

Definition internal_error (message : value) : response :=
  json 500 [ ("error", VStr "Internal server error"); ("details", message) ].

Definition validation_failed (validationErrors : list string) : response :=
  json 400 [ ("error", VStr "Validation failed");
             ("details", VArr (map VStr validationErrors)) ].

Definition success_response (order_id : value) (assembly_id sqs_message_id : string)
    : response :=
  json 200 [ ("success", VBool true);
             ("order_id", order_id);
             ("assembly_id", VStr assembly_id);
             ("message", VStr "Order assembled and published successfully");
             ("sqs_message_id", VStr sqs_message_id) ].

Definition assembled_order (payload : value) (enrichedItems : list value)
    (assembled_ts assembly_id : string) : value :=
  VObj [ ("order_id", get payload "order_id");
         ("customer_id", get payload "customer_id");
         ("items", VArr enrichedItems);
         ("order_ts", get payload "order_ts");
         ("assembled_ts", VStr assembled_ts);
         ("assembly_id", VStr assembly_id) ].

(** The route handler, after the authentication middleware called
    [next()].  A throw of [validateOrderPayload] lands in the outer
    [catch]; once validation returned, [req.body] is not nullish and the
    destructuring cannot throw. *)
Definition assemble_handler (payload : value) : M response :=
  match validateOrderPayload payload with
  | inl error => ret (internal_error (error_message error))
  | inr validationErrors =>
      if (0 <? List.length validationErrors)%nat
      then ret (validation_failed validationErrors)
      else
        e <- enrichOrderWithMetadata (get payload "items") ;;
        match e with
        | inl error => ret (error_response error 502)
        | inr enrichedItems =>
            now <- new_Date ;;
            assembly_id <- call_uuidv4 ;;
            let enrichedOrder :=
              assembled_order payload enrichedItems (toISOString R now) assembly_id in
            p <- publishToSQS enrichedOrder ;;
            match p with
            | inl error => ret (error_response error 503)
            | inr MessageId =>
                ret (success_response (get payload "order_id") assembly_id MessageId)
            end
        end
  end.

(** The middleware chain for a POST to [/orders/assemble]:
    [express.json()], then [authenticateApiKey], then the handler; an
    error passed to [next] by the body parser is answered by the
    error-handling middleware. *)
Definition post_orders_assemble (req : request) : M response :=
  match req_body req with
  | ParseError message => ret (internal_error (VStr message))
  | Parsed payload =>
      a <- authenticateApiKey (x_api_key req) ;;
      match a with
      | Respond r => ret r
      | Next _ => assemble_handler payload
      end
  end.

End Service.

(** ** Observing a request *)

Definition is_clock (e : event) : Prop :=
  match e with EvNow _ => True | _ => False end.

(** Whether the authentication middleware calls [next()]. *)
Definition key_accepted (R : Runtime) (apiKey : option string) (w : World R) : bool :=
  match fst (fst (authenticateApiKey R apiKey w)) with
  | Next _ => true
  | Respond _ => false
  end.


Section Outcomes.

Variable R : Runtime.

(** The errors the [forEach] callback adds for one item. *)
Definition item_errors (item : value) (index : nat) : list string :=
  validate_item item index [].

Fixpoint items_errors (items : list value) (index : nat) : list string :=
  match items with
  | [] => []
  | item :: rest => (item_errors item index ++ items_errors rest (S index))%list
  end.

Definition when (rejected : bool) (message : string) : list string :=
  if rejected then [message] else [].

(** The elements the [forEach] visits. *)
Definition items_of (payload : value) : list value :=
  match get payload "items" with VArr l => l | _ => [] end.

(** The error list of a payload none of whose items is nullish: the
    errors of the five checks, in the order of the source. *)
Definition all_errors (payload : value) : list string :=
  (when (string_rejected (get payload "order_id"))
        "order_id is required and must be a string"
   ++ when (string_rejected (get payload "customer_id"))
        "customer_id is required and must be a string"
   ++ when (items_rejected (get payload "items"))
        "items is required and must be a non-empty array"
   ++ items_errors (items_of payload) 0
   ++ validate_order_ts R (get payload "order_ts") [])%list.

Definition accepted_item (item : value) : Prop :=
  nullish item = false /\
  (exists sku, get item "sku" = VStr sku /\ sku <> "") /\
  quantity_rejected (get item "quantity") = false.

Definition readable_item (item : value) : Prop :=
  nullish item = false /\ get item "quantity" <> VNum NaN.

Definition found (p : value * value) : event :=
  EvCatalogGet (catalog_url R (get (fst p) "sku")) 5000 (inr (snd p)).

Definition failed (item : value) (cause : string) : event :=
  EvCatalogGet (catalog_url R (get item "sku")) 5000 (inl cause).

Definition enriched (p : value * value) : value :=
  enriched_item (fst p) (snd p).

(** The two ways the loop ends on items none of which is nullish:
    every lookup answered, or the first rejected lookup aborted it. *)
Inductive enrich_outcome (items acc : list value)
    : thrown + list value -> list event -> Prop :=
| all_found metas :
    List.length metas = List.length items ->
    enrich_outcome items acc
      (inr (acc ++ map enriched (combine items metas))%list)
      (map found (combine items metas))
| first_failure before item after metas cause :
    items = (before ++ item :: after)%list ->
    List.length metas = List.length before ->
    enrich_outcome items acc
      (inl (Raised 502 (enrichment_message R (get item "sku")) cause))
      (map found (combine before metas) ++ [failed item cause])%list.

Definition bad_gateway (item : value) (cause : string) : response :=
  json 502 [ ("error", VStr (enrichment_message R (get item "sku")));
             ("details", VStr cause) ].

Definition service_unavailable (cause : string) : response :=
  json 503 [ ("error", VStr "Failed to publish order to queue");
             ("details", VStr cause) ].

(** The two ways a request with an accepted payload ends: a lookup was
    rejected, or the order was assembled and handed to the queue once. *)
Inductive assembly_outcome (payload : value) (items : list value)
    : response -> list event -> Prop :=
| enrichment_failed before item after metas cause :
    items = (before ++ item :: after)%list ->
    List.length metas = List.length before ->
    assembly_outcome payload items
      (bad_gateway item cause)
      (map found (combine before metas) ++ [failed item cause])%list
| order_assembled metas now wu r :
    List.length metas = List.length items ->
    let assembly_id := fst (uuidv4 R wu) in
    let order := assembled_order payload (map enriched (combine items metas))
                   (toISOString R now) assembly_id in
    assembly_outcome payload items
      (match r with
       | inl cause => service_unavailable cause
       | inr MessageId => success_response (get payload "order_id") assembly_id MessageId
       end)
      (map found (combine items metas)
       ++ [EvNow now; EvUuid assembly_id; EvSend (publish_params R order) r])%list.

(** Every way a request can end. *)
Inductive pipeline_outcome (req : request) (w : World R)
    : response -> list event -> Prop :=
| body_unparsed message :
    req_body req = ParseError message ->
    pipeline_outcome req w (internal_error (VStr message)) []
| key_refused payload resp evs :
    req_body req = Parsed payload ->
    key_accepted R (x_api_key req) w = false ->
    status resp = 401 -> Forall is_clock evs ->
    pipeline_outcome req w resp evs
| validation_threw payload e evs :
    req_body req = Parsed payload ->
    key_accepted R (x_api_key req) w = true ->
    validateOrderPayload R payload = inl e -> Forall is_clock evs ->
    pipeline_outcome req w (internal_error (error_message e)) evs
| payload_refused payload errors evs :
    req_body req = Parsed payload ->
    key_accepted R (x_api_key req) w = true ->
    validateOrderPayload R payload = inr errors -> errors <> [] ->
    Forall is_clock evs ->
    pipeline_outcome req w (validation_failed errors) evs
| payload_processed payload items resp evs0 evs1 :
    req_body req = Parsed payload ->
    key_accepted R (x_api_key req) w = true ->
    validateOrderPayload R payload = inr [] ->
    get payload "items" = VArr items -> Forall accepted_item items ->
    Forall is_clock evs0 ->
    assembly_outcome payload items resp evs1 ->
    pipeline_outcome req w resp (evs0 ++ evs1)%list.

End Outcomes.

(** What the check of a line item lets through. *)
Definition passes_item_checks (item : value) : Prop :=
  exists sku n,
    get item "sku" = VStr sku /\ sku <> "" /\
    get item "quantity" = VNum n /\ le_zero n = false.

Definition is_lookup (e : event) : bool :=
  match e with EvCatalogGet _ _ _ => true | _ => false end.

(** ** The rules of the specification *)

(** The specification's line item: "quantity (integer, strictly greater
    than zero)". *)
Definition spec_positive_integer (q : value) : bool :=
  match q with
  | VNum (Fin x) => (0 <? Qnum (Qred x)) && (Qden (Qred x) =? 1)%positive
  | _ => false
  end.

(** The validation rules, in the words of the specification. *)
Inductive rule : Type :=
| Rule_order_id
| Rule_customer_id
| Rule_items
| Rule_item_sku (index : nat)
| Rule_item_quantity (index : nat)
| Rule_order_ts.

(** "present, non-empty string" *)
Definition spec_nonempty_string (v : value) : bool :=
  match v with VStr s => negb (String.eqb s "") | _ => false end.

(** "present, numeric, strictly greater than zero" *)
Definition spec_positive_number (v : value) : bool :=
  match v with
  | VNum (Fin q) => 0 <? Qnum q
  | VNum (Infinity negative) => negb negative
  | _ => false
  end.

Definition spec_holds (R : Runtime) (payload : value) (r : rule) : bool :=
  match r with
  | Rule_order_id => spec_nonempty_string (get payload "order_id")
  | Rule_customer_id => spec_nonempty_string (get payload "customer_id")
  | Rule_items =>
      (* "present, is a sequence, and has at least one element" *)
      match get payload "items" with VArr (_ :: _) => true | _ => false end
  | Rule_item_sku index =>
      match nth_error (items_of payload) index with
      | Some item => spec_nonempty_string (get item "sku")
      | None => true
      end
  | Rule_item_quantity index =>
      match nth_error (items_of payload) index with
      | Some item => spec_positive_number (get item "quantity")
      | None => true
      end
  | Rule_order_ts =>
      (* "present, a string that parses as a valid timestamp" *)
      match get payload "order_ts" with
      | VStr s => negb (String.eqb s "") && Date_valid R s
      | _ => false
      end
  end.

Definition item_rules (index : nat) : list rule :=
  [Rule_item_sku index; Rule_item_quantity index].

(** The rules that apply to a payload, in the order the source checks them. *)
Definition spec_rules (payload : value) : list rule :=
  ([Rule_order_id; Rule_customer_id; Rule_items]
   ++ flat_map item_rules (seq 0 (List.length (items_of payload)))
   ++ [Rule_order_ts])%list.

(** The entry the source adds to the error list for a violated rule. *)
Definition rule_error (payload : value) (r : rule) : string :=
  match r with
  | Rule_order_id => "order_id is required and must be a string"
  | Rule_customer_id => "customer_id is required and must be a string"
  | Rule_items => "items is required and must be a non-empty array"
  | Rule_item_sku index => sku_message index
  | Rule_item_quantity index => quantity_message index
  | Rule_order_ts =>
      if string_rejected (get payload "order_ts")
      then "order_ts is required and must be a valid ISO 8601 timestamp"
      else "order_ts must be a valid ISO 8601 timestamp"
  end.

Definition violated (R : Runtime) (payload : value) (r : rule) : bool :=
  negb (spec_holds R payload r).

(** ** The textual form of an assembly identifier *)

(** The pattern the acceptance tests match [assembly_id] against:
    [/^[0-9a-f]{8}-[0-9a-f]{4}-4[0-9a-f]{3}-[89ab][0-9a-f]{3}-[0-9a-f]{12}$/i] *)
Inductive char_class : Type := Hex | Dash | Four | Variant.

Definition in_range (lo hi c : ascii) : bool :=
  ((nat_of_ascii lo <=? nat_of_ascii c) && (nat_of_ascii c <=? nat_of_ascii hi))%nat.

Definition class_matches (k : char_class) (c : ascii) : bool :=
  match k with
  | Hex => in_range "0" "9" c || in_range "a" "f" c || in_range "A" "F" c
  | Dash => Ascii.eqb c "-"
  | Four => Ascii.eqb c "4"
  | Variant =>
      Ascii.eqb c "8" || Ascii.eqb c "9" || Ascii.eqb c "a" || Ascii.eqb c "b"
      || Ascii.eqb c "A" || Ascii.eqb c "B"
  end.

Fixpoint pattern_matches (p : list char_class) (s : string) : bool :=
  match p, s with
  | [], EmptyString => true
  | k :: p', String c s' => class_matches k c && pattern_matches p' s'
  | _, _ => false
  end.

Definition uuid_pattern : list char_class :=
  (repeat Hex 8 ++ [Dash] ++ repeat Hex 4 ++ [Dash; Four] ++ repeat Hex 3
   ++ [Dash; Variant] ++ repeat Hex 3 ++ [Dash] ++ repeat Hex 12)%list.

Definition uuid_form (s : string) : bool := pattern_matches uuid_pattern s.

(** The contract of the [uuid] package: [v4()] returns a string in that form. *)
Definition uuid_contract (R : Runtime) : Prop :=
  forall w, uuid_form (fst (uuidv4 R w)) = true.

(** ** A runtime for examples *)

Module Demo.

(** A frozen clock, a counter of identifiers handed out, and a switch for
    the queue transport. *)
Record world : Type := {
  clock : Z;
  issued : nat;
  queue_reachable : bool
}.

Definition catalog : list (string * value) :=
  [ ("SKU100", VObj [ ("name", VStr "Birthday Card"); ("price_cents", VNum (Fin 499)) ]);
    ("SKU200", VObj [ ("name", VStr "Thank You Card"); ("price_cents", VNum (Fin 300)) ]) ].

Definition strip_prefix (prefix s : string) : option string :=
  if String.prefix prefix s
  then Some (String.substring (String.length prefix)
                              (String.length s - String.length prefix) s)
  else None.

Definition get_catalog (url : string) (timeout : Z) (w : world)
    : (string + value) * world :=
  match strip_prefix "http://localhost:8080/catalog/sku/" url with
  | Some sku =>
      match lookup sku catalog with
      | Some metadata => (inr metadata, w)
      | None => (inl "Request failed with status code 404", w)
      end
  | None => (inl "getaddrinfo ENOTFOUND", w)
  end.

Definition hex_digit (n : nat) : ascii :=
  match n with
  | 10 => "a" | 11 => "b" | 12 => "c" | 13 => "d" | 14 => "e" | 15 => "f"
  | _ => ascii_of_nat (48 + n)
  end%nat%char.

Fixpoint hex_digits (width n : nat) (acc : string) : string :=
  match width with
  | O => acc
  | S width' => hex_digits width' (n / 16) (String (hex_digit (n mod 16)) acc)
  end.

Definition fresh_uuid (w : world) : string * world :=
  ("00000000-0000-4000-8000-" ++ hex_digits 12 (issued w) "",
   {| clock := clock w; issued := S (issued w); queue_reachable := queue_reachable w |}).

Definition send (p : send_params) (w : world) : (string + string) * world :=
  if queue_reachable w
  then (inr ("msg-" ++ index_string (issued w)), w)
  else (inl "connect ECONNREFUSED 127.0.0.1:4566", w).

Definition is_digit (c : ascii) : bool := in_range "0" "9" c.

(** Accepts the shape [dddd-dd-ddTdd:dd:ddZ]. *)
Fixpoint shape_matches (shape s : string) : bool :=
  match shape, s with
  | EmptyString, EmptyString => true
  | String k shape', String c s' =>
      (if Ascii.eqb k "d" then is_digit c else Ascii.eqb k c) && shape_matches shape' s'
  | _, _ => false
  end.

Definition to_string_other (v : value) : string :=
  match v with
  | VUndefined => "undefined"
  | VNull => "null"
  | VBool true => "true"
  | VBool false => "false"
  | VNum NaN => "NaN"
  | VNum (Infinity true) => "-Infinity"
  | VNum (Infinity false) => "Infinity"
  | _ => "[object Object]"
  end.

Definition type_error_message (v : value) (p : string) : string :=
  "Cannot read properties of " ++ to_string_other v ++ " (reading '" ++ p ++ "')".

Definition quote : string := String (ascii_of_nat 34) "".

Definition separator {A} (rest : list A) : string :=
  match rest with [] => "" | _ => "," end.

(** A serializer for documents of strings, booleans, integers, arrays and
    objects (no escaping; anything else is written [null]). *)
Fixpoint stringify (v : value) : string :=
  match v with
  | VStr s => quote ++ s ++ quote
  | VBool true => "true"
  | VBool false => "false"
  | VNum (Fin q) =>
      if (Qden q =? 1)%positive
      then NilZero.string_of_int (Z.to_int (Qnum q)) else "null"
  | VArr l =>
      "[" ++ (fix elems (l : list value) : string :=
                match l with
                | [] => ""
                | x :: rest => stringify x ++ separator rest ++ elems rest
                end) l ++ "]"
  | VObj fields =>
      "{" ++ (fix members (fs : list (string * value)) : string :=
                match fs with
                | [] => ""
                | (k, x) :: rest =>
                    quote ++ k ++ quote ++ ":" ++ stringify x
                    ++ separator rest ++ members rest
                end) fields ++ "}"
  | _ => "null"
  end.

Definition runtime : Runtime :=
  {| World := world;
     Date_now := fun w => (clock w, w);
     axios_get := get_catalog;
     uuidv4 := fresh_uuid;
     sqs_sendMessage := send;
     Date_valid := shape_matches "dddd-dd-ddTdd:dd:ddZ";
     toISOString := fun _ => "2025-01-31T10:00:01.000Z";
     JSON_stringify := stringify;
     ToString_other := to_string_other;
     TypeError_message := type_error_message;
     env_CARD_CATALOG_URL := None;
     env_QUEUE_URL := None |}.

Definition start : world :=
  {| clock := 1738317601000; issued := 0; queue_reachable := true |}.

Definition queue_down : world :=
  {| clock := 1738317601000; issued := 0; queue_reachable := false |}.

Definition valid_key : option string := Some "sk-test-valid-key-123456789".

Definition item (sku : string) (quantity : Q) : value :=
  VObj [ ("sku", VStr sku); ("quantity", VNum (Fin quantity)) ].

Definition order (items : list value) : value :=
  VObj [ ("order_id", VStr "O1"); ("customer_id", VStr "C1");
         ("items", VArr items); ("order_ts", VStr "2025-01-31T10:00:00Z") ].

Definition validOrder : value := order [ item "SKU100" 2 ].

Definition post (key : option string) (payload : value) : request :=
  {| x_api_key := key; req_body := Parsed payload |}.

End Demo.

(** ** GET /health *)

Section Health.

Variable R : Runtime.

(** The liveness probe.  The route has no authentication middleware, but
    [express.json()] is mounted on the application before every route:
    a body it cannot parse is answered by the error-handling middleware
    here as well. *)
Definition get_health (req : request) : M R response :=
  match req_body req with
  | ParseError message => ret R (internal_error (VStr message))
  | Parsed _ =>
      bind R (new_Date R) (fun now =>
      ret R (json 200 [ ("status", VStr "healthy");
                        ("service", VStr "order-assembly-service");
                        ("timestamp", VStr (toISOString R now));
                        ("version", VStr "1.0.0") ]))
  end.

End Health.

(** * The test helpers *)

(** ** Object literals with spread *)

(** [i], [i+1], ... paired with the elements of an array. *)
Fixpoint indexed (i : nat) (l : list value) : list (string * value) :=
  match l with
  | [] => []
  | x :: rest => (index_string i, x) :: indexed (S i) rest
  end.

(** The own enumerable properties [{...v}] copies: the fields of an
    object, the elements of an array and the characters of a string under
    their indices, nothing for the other values. *)
Definition own_properties (v : value) : list (string * value) :=
  match v with
  | VObj fields => fields
  | VArr l => indexed 0 l
  | VStr s => indexed 0 (map (fun c => VStr (String c "")) (list_ascii_of_string s))
  | _ => []
  end.

(** Writing a property: an existing binding is replaced where it stands,
    a new one is added at the end.  (The engine moves index-like keys to
    the front; the statements below read properties only.) *)
Fixpoint set_field (k : string) (v : value) (fields : list (string * value))
    : list (string * value) :=
  match fields with
  | [] => [(k, v)]
  | (k', v') :: rest =>
      if String.eqb k' k then (k, v) :: rest else (k', v') :: set_field k v rest
  end.

(** [{ ...fields, ...source }] *)
Definition spread (fields : list (string * value)) (source : value)
    : list (string * value) :=
  fold_left (fun acc kv => set_field (fst kv) (snd kv) acc) (own_properties source) fields.

(** ** Comparisons and assertions *)

Definition number_equal (x y : number) : bool :=
  match x, y with
  | Fin p, Fin q => Qeq_bool p q
  | Infinity a, Infinity b => Bool.eqb a b
  | _, _ => false
  end.

(** [a === b] where at least one side was freshly built (a parsed
    document, a response): primitives compare by value, and an object or
    array is identical to nothing else. *)
Definition strict_equal (a b : value) : bool :=
  match a, b with
  | VUndefined, VUndefined => true
  | VNull, VNull => true
  | VBool x, VBool y => Bool.eqb x y
  | VNum x, VNum y => number_equal x y
  | VStr x, VStr y => String.eqb x y
  | _, _ => false
  end.

(** [expect(v).to.have.property(p)], for a property name that arrays,
    strings, numbers and booleans do not define: it holds of an object
    with an own or inherited property of that name. *)
Definition has_property (v : value) (p : string) : bool :=
  match v with
  | VObj fields =>
      match lookup p fields with
      | Some _ => true
      | None => mem_string p Object_prototype_members
      end
  | _ => false
  end.

(** ** The Cypress side *)

(** What a helper can end with instead of a value. *)
Inductive failure : Type :=
| CommandFailed (message : string)      (* a Cypress command failed *)
| ErrorThrown (message : string)        (* throw new Error(message) *)
| TypeErrorThrown (message : string)
| SyntaxErrorThrown                     (* JSON.parse *)
| AssertionFailed.                      (* a chai expectation *)

(** The browser the tests run in: [cy.request] yields a response object
    or fails the command; the built-ins the helpers use. *)
Record Cypress : Type := {
  Browser : Type;
  cy_request : value -> Browser -> (string + value) * Browser;
  (** [JSON.parse(v)]; [None] when it throws *)
  JSON_parse : value -> option value;
  (** ToString in a template literal *)
  template : value -> string;
  (** ToNumber of a string, array or object *)
  ToNumber_other : value -> number;
  (** the engine's message for reading property [p] of [undefined]/[null] *)
  reading_message : value -> string -> string
}.

(** [x > 0] *)
Definition positive (n : number) : bool :=
  match n with
  | NaN => false
  | Infinity negative => negb negative
  | Fin q => negb (Qle_bool q 0)
  end.

Section CypressCommands.

Variable C : Cypress.

(** A chain of commands: changes the browser's world, records the
    options of every [cy.request], and yields a value or fails. *)
Definition Chain (A : Type) : Type :=
  Browser C -> (failure + A) * Browser C * list value.

Definition yield {A} (a : A) : Chain A := fun b => (inr a, b, []).

Definition throw {A} (f : failure) : Chain A := fun b => (inl f, b, []).

Definition then_ {A B} (m : Chain A) (k : A -> Chain B) : Chain B :=
  fun b =>
    let '(r, b1, t1) := m b in
    match r with
    | inl f => (inl f, b1, t1)
    | inr a => let '(r2, b2, t2) := k a b1 in (r2, b2, (t1 ++ t2)%list)
    end.

Definition send_request (options : value) : Chain value :=
  fun b =>
    let '(r, b') := cy_request C options b in
    (match r with inl m => inl (CommandFailed m) | inr response => inr response end,
     b', [options]).

(** [v.p], throwing on [undefined] and [null]. *)
Definition read {A} (v : value) (p : string) (k : value -> failure + A) : failure + A :=
  if nullish v then inl (TypeErrorThrown (reading_message C v p)) else k (get v p).

(** [(param = fallback)] *)
Definition default (param fallback : value) : value :=
  match param with VUndefined => fallback | _ => param end.

(** ToNumber *)
Definition ToNumber (v : value) : number :=
  match v with
  | VUndefined => NaN
  | VNull => Fin 0
  | VBool true => Fin 1
  | VBool false => Fin 0
  | VNum n => n
  | _ => ToNumber_other C v
  end.

End CypressCommands.

Arguments yield {C A} a.
Arguments throw {C A} f.
Arguments then_ {C A B} m k.

(** ** api.helper.js *)

Module apiHelper.

(** The module variable [defaultApiKey]. *)
Definition initial_key : value := VStr "sk-test-valid-key-123456789".

Definition setDefaultApiKey (key : value) (defaultApiKey : value) : value := key.

Definition resetDefaultApiKey (defaultApiKey : value) : value :=
  VStr "sk-test-valid-key-123456789".

Section Requests.

Variable C : Cypress.
Variable defaultApiKey : value.

(** [const headers = options.headers || {}] *)
Definition headers_of (options : value) : value :=
  if truthy (get options "headers") then get options "headers" else VObj [].

(** The shared shape of the four methods: the literal's own entries, the
    merged headers, and then [...options] over all of it. *)
Definition issue (entries : list (string * value)) (fixed_headers : list (string * value))
    (options : value) : Chain C value :=
  let options := default options (VObj []) in
  if nullish options
  then throw (TypeErrorThrown (reading_message C options "headers"))
  else
    send_request C
      (VObj (spread
               (entries ++ [ ("headers",
                              VObj (spread (fixed_headers ++ [("x-api-key", defaultApiKey)])
                                      (headers_of options))) ])%list
               options)).

Definition get (endpoint options : value) : Chain C value :=
  issue [ ("method", VStr "GET"); ("url", endpoint) ] [] options.

Definition post (endpoint payload options : value) : Chain C value :=
  issue [ ("method", VStr "POST"); ("url", endpoint); ("body", payload) ]
       [ ("Content-Type", VStr "application/json") ] options.

Definition put (endpoint payload options : value) : Chain C value :=
  issue [ ("method", VStr "PUT"); ("url", endpoint); ("body", payload) ]
       [ ("Content-Type", VStr "application/json") ] options.

Definition delete (endpoint options : value) : Chain C value :=
  issue [ ("method", VStr "DELETE"); ("url", endpoint) ] [] options.

End Requests.

End apiHelper.

(** ** sqs.helper.js *)

Module sqsHelper.

Definition SQS_ENDPOINT : string := "http://localhost:4566".
Definition QUEUE_NAME : string := "assembled-orders".
Definition AWS_REGION : string := "us-east-1".
Definition AWS_ACCESS_KEY : string := "testing".

Definition form_headers : value :=
  VObj [ ("Content-Type", VStr "application/x-www-form-urlencoded") ].

Definition status_is_200 (response : value) : bool :=
  strict_equal (get response "status") (VNum (Fin 200)).

Section Queue.

Variable C : Cypress.

Definition queue_url_request (queueName : value) : value :=
  VObj [ ("method", VStr "POST");
         ("url", VStr SQS_ENDPOINT);
         ("headers",
          VObj [ ("Content-Type", VStr "application/x-amz-json-1.1");
                 ("X-Amz-Target", VStr "AmazonSQS.GetQueueUrl");
                 ("Authorization",
                  VStr ("AWS4-HMAC-SHA256 Credential=" ++ AWS_ACCESS_KEY ++ "/20250131/"
                        ++ AWS_REGION ++ "/sqs/aws4_request")) ]);
         ("body", VObj [ ("QueueName", queueName) ]);
         ("failOnStatusCode", VBool false) ].

Definition getQueueUrl (queueName : value) : Chain C value :=
  let queueName := default queueName (VStr QUEUE_NAME) in
  then_ (send_request C (queue_url_request queueName)) (fun response b =>
    (if nullish response
     then inl (TypeErrorThrown (reading_message C response "status"))
     else if status_is_200 response
     then read C (get response "body") "QueueUrl" inr
     else inl (ErrorThrown ("Failed to get queue URL: "
                            ++ template C (get response "status"))),
     b, [])).

Definition action_request (fields : list (string * value)) : value :=
  VObj [ ("method", VStr "POST");
         ("url", VStr SQS_ENDPOINT);
         ("headers", form_headers);
         ("body", VObj fields);
         ("failOnStatusCode", VBool false) ].

(** The callback of [receiveMessage] on the response. *)
Definition received_messages (response : value) : failure + list value :=
  read C response "status" (fun status =>
  if strict_equal status (VNum (Fin 200))
  then
    read C (get response "body") "ReceiveMessageResponse" (fun envelope =>
    if truthy envelope
    then
      read C (get envelope "ReceiveMessageResult") "Message" (fun message =>
      let messages := if truthy message then message else VArr [] in
      match messages with
      | VArr l => inr l
      | _ => inr [messages]
      end)
    else inr [])
  else inr []).

Definition receiveMessage (queueName maxMessages : value) : Chain C (list value) :=
  let queueName := default queueName (VStr QUEUE_NAME) in
  let maxMessages := default maxMessages (VNum (Fin 1)) in
  then_ (getQueueUrl queueName) (fun queueUrl =>
  then_ (send_request C (action_request
                      [ ("Action", VStr "ReceiveMessage");
                        ("QueueUrl", queueUrl);
                        ("MaxNumberOfMessages", maxMessages);
                        ("Version", VStr "2012-11-05") ]))
        (fun response b => (received_messages response, b, []))).

Definition receiveAndParseMessage (queueName : value) : Chain C value :=
  let queueName := default queueName (VStr QUEUE_NAME) in
  then_ (receiveMessage queueName (VNum (Fin 1))) (fun messages b =>
    (match messages with
     | [] => inl (ErrorThrown "No messages in queue")
     | message :: _ =>
         read C message "Body" (fun body =>
         match JSON_parse C body with
         | Some document => inr document
         | None => inl SyntaxErrorThrown
         end)
     end, b, [])).

Definition deleteMessage (queueName receiptHandle : value) : Chain C bool :=
  let queueName := default queueName (VStr QUEUE_NAME) in
  then_ (getQueueUrl queueName) (fun queueUrl =>
  then_ (send_request C (action_request
                      [ ("Action", VStr "DeleteMessage");
                        ("QueueUrl", queueUrl);
                        ("ReceiptHandle", receiptHandle);
                        ("Version", VStr "2012-11-05") ]))
        (fun response b =>
           (read C response "status" (fun status =>
              inr (strict_equal status (VNum (Fin 200)))), b, []))).

Definition purgeQueue (queueName : value) : Chain C bool :=
  let queueName := default queueName (VStr QUEUE_NAME) in
  then_ (getQueueUrl queueName) (fun queueUrl =>
  then_ (send_request C (action_request
                      [ ("Action", VStr "PurgeQueue");
                        ("QueueUrl", queueUrl);
                        ("Version", VStr "2012-11-05") ]))
        (fun response b =>
           (read C response "status" (fun status =>
              inr (strict_equal status (VNum (Fin 200)))), b, []))).

Definition getQueueAttributes (queueName : value) : Chain C value :=
  let queueName := default queueName (VStr QUEUE_NAME) in
  then_ (getQueueUrl queueName) (fun queueUrl =>
  then_ (send_request C (action_request
                      [ ("Action", VStr "GetQueueAttributes");
                        ("QueueUrl", queueUrl);
                        ("AttributeNames", VArr [VStr "All"]);
                        ("Version", VStr "2012-11-05") ]))
        (fun response b =>
           (read C response "status" (fun status =>
            if strict_equal status (VNum (Fin 200))
            then
              read C (get response "body") "GetQueueAttributesResponse" (fun envelope =>
              if truthy envelope
              then read C (get envelope "GetQueueAttributesResult") "Attributes" inr
              else inr (VObj []))
            else inr (VObj [])), b, []))).

(** *** Message validators *)

(** Each validator runs its expectations in a [try] block inside a
    promise: [inr true] is [resolve(true)], [inl] is [reject(error)]. *)

Definition expect (holds : bool) (k : failure + bool) : failure + bool :=
  if holds then k else inl AssertionFailed.

Definition isObject (v : value) : bool :=
  match v with VObj _ => true | _ => false end.

(** [Object.keys(v).length] *)
Definition keys_length (v : value) : nat := List.length (own_properties v).

Definition parse_body (message : value) (k : value -> failure + bool) : failure + bool :=
  read C message "Body" (fun raw =>
  match JSON_parse C raw with
  | Some body => k body
  | None => inl SyntaxErrorThrown
  end).

Definition validateOrderMessage (message expectedOrder : value) : failure + bool :=
  let expectedOrder := default expectedOrder (VObj []) in
  parse_body message (fun body =>
  expect (has_property body "order_id") (
  expect (has_property body "customer_id") (
  expect (has_property body "items") (
  expect (has_property body "order_ts") (
  expect (has_property body "assembly_id") (
  if nullish expectedOrder
  then inl (TypeErrorThrown "Cannot convert undefined or null to object")
  else if (0 <? keys_length expectedOrder)%nat
  then
    (if truthy (get expectedOrder "order_id")
     then expect (strict_equal (get body "order_id") (get expectedOrder "order_id"))
     else fun k => k) (
    (if truthy (get expectedOrder "customer_id")
     then expect (strict_equal (get body "customer_id") (get expectedOrder "customer_id"))
     else fun k => k) (
    (if truthy (get expectedOrder "items")
     then expect (isArray (get body "items"))
     else fun k => k) (
    inr true)))
  else inr true)))))).

(** [enrichedItems.some((item) => item.sku === sku)] *)
Fixpoint some_sku (items : list value) (sku : value) : failure + bool :=
  match items with
  | [] => inr false
  | item :: rest =>
      if nullish item
      then inl (TypeErrorThrown (reading_message C item "sku"))
      else if strict_equal (get item "sku") sku then inr true else some_sku rest sku
  end.

(** [expectedSkus.forEach((sku) => ...)] *)
Fixpoint each_sku_found (enrichedItems : list value) (expectedSkus : list value)
    : failure + bool :=
  match expectedSkus with
  | [] => inr true
  | sku :: rest =>
      match some_sku enrichedItems sku with
      | inl f => inl f
      | inr foundSku => expect foundSku (each_sku_found enrichedItems rest)
      end
  end.

(** [expectedSkus.length > 0], then [expectedSkus.forEach]: only an array
    has that method. *)
Definition check_expected_skus (enrichedItems : list value) (expectedSkus : value)
    : failure + bool :=
  if nullish expectedSkus
  then inl (TypeErrorThrown (reading_message C expectedSkus "length"))
  else
    match expectedSkus with
    | VArr l => if (0 <? List.length l)%nat then each_sku_found enrichedItems l else inr true
    | VStr s =>
        if (0 <? String.length s)%nat
        then inl (TypeErrorThrown "expectedSkus.forEach is not a function")
        else inr true
    | _ =>
        if positive (ToNumber C (get expectedSkus "length"))
        then inl (TypeErrorThrown "expectedSkus.forEach is not a function")
        else inr true
    end.

Definition validateEnrichedData (message expectedSkus : value) : failure + bool :=
  let expectedSkus := default expectedSkus (VArr []) in
  parse_body message (fun body =>
  expect (has_property body "enriched_items") (
  let enrichedItems :=
    if truthy (get body "enriched_items") then get body "enriched_items" else VArr [] in
  match enrichedItems with
  | VArr items => check_expected_skus items expectedSkus
  | _ => inl AssertionFailed
  end)).

End Queue.

End sqsHelper.

(** ** A browser for examples *)

Module DemoCypress.

(** The responses still to come, and the documents the parser knows. *)
Definition browser : Type := list (string + value).

Definition next_response (options : value) (b : browser) : (string + value) * browser :=
  match b with
  | r :: rest => (r, rest)
  | [] => (inl "connect ECONNREFUSED", [])
  end.

Definition published_order : value :=
  assembled_order Demo.validOrder
    [enriched_item (Demo.item "SKU100" 2)
       (VObj [ ("name", VStr "Birthday Card"); ("price_cents", VNum (Fin 499)) ])]
    "2025-01-31T10:00:01.000Z" "00000000-0000-4000-8000-000000000000".

Definition parse (v : value) : option value :=
  match v with
  | VStr s => if String.eqb s (Demo.stringify published_order)
              then Some published_order else None
  | _ => None
  end.

Definition cypress : Cypress :=
  {| Browser := browser;
     cy_request := next_response;
     JSON_parse := parse;
     template := fun v => match v with
                          | VNum (Fin q) => NilZero.string_of_int (Z.to_int (Qnum q))
                          | VStr s => s
                          | _ => Demo.to_string_other v
                          end;
     ToNumber_other := fun _ => NaN;
     reading_message := Demo.type_error_message |}.

Definition response (status : Z) (body : value) : string + value :=
  inr (VObj [ ("status", VNum (Fin (inject_Z status))); ("body", body) ]).

Definition published_message : value :=
  VObj [ ("MessageId", VStr "msg-1");
         ("ReceiptHandle", VStr "handle-1");
         ("Body", VStr (Demo.stringify published_order)) ].

End DemoCypress.

(** ** What the collaborators can be assumed to do *)

(** An event that the runtime can really produce: its outcome is what the
    collaborator answers in some world. *)
Definition genuine (R : Runtime) (e : event) : Prop :=
  match e with
  | EvNow t => exists w, t = fst (Date_now R w)
  | EvCatalogGet url timeout r => exists w, r = fst (axios_get R url timeout w)
  | EvUuid id => exists w, id = fst (uuidv4 R w)
  | EvSend params r => exists w, r = fst (sqs_sendMessage R params w)
  end.

(** The catalog rejects the lookup of this SKU whenever it is asked. *)
Definition never_resolves (R : Runtime) (sku : value) : Prop :=
  forall w, exists cause, fst (axios_get R (catalog_url R sku) 5000 w) = inl cause.

(** The catalog answers the lookup of this SKU whenever it is asked. *)
Definition always_resolves (R : Runtime) (sku : value) : Prop :=
  forall w, exists data, fst (axios_get R (catalog_url R sku) 5000 w) = inr data.


(** A property of runs holds of a computation when it holds of each of
    its runs: of the world it starts in, the calls it records and the
    world it leaves. *)
Definition respects (R : Runtime) (P : World R -> list event -> World R -> Prop)
    {A} (m : M R A) : Prop :=
  forall w a w' evs, m w = (a, w', evs) -> P w evs w'.

(** ** A runtime whose generator counts *)

Module Counting.

Fixpoint tally (n : nat) : string :=
  match n with
  | O => ""
  | S k => String "i" (tally k)
  end.

(** The n-th identifier: a mark followed by n strokes. *)
Definition nth_id (n : nat) : string := String "#" (tally n).

Definition next_id (w : Demo.world) : string * Demo.world :=
  (nth_id (Demo.issued w),
   {| Demo.clock := Demo.clock w; Demo.issued := S (Demo.issued w);
      Demo.queue_reachable := Demo.queue_reachable w |}).

(** The runtime of the examples with that generator. *)
Definition runtime : Runtime :=
  {| World := Demo.world;
     Date_now := Date_now Demo.runtime;
     axios_get := Demo.get_catalog;
     uuidv4 := next_id;
     sqs_sendMessage := Demo.send;
     Date_valid := Date_valid Demo.runtime;
     toISOString := toISOString Demo.runtime;
     JSON_stringify := Demo.stringify;
     ToString_other := Demo.to_string_other;
     TypeError_message := Demo.type_error_message;
     env_CARD_CATALOG_URL := None;
     env_QUEUE_URL := None |}.


End Counting.

(** * Properties *)

(** ** Running computations *)

Section Runs.

Variable R : Runtime.

Lemma ret_run {A} (a b : A) w w' evs :
  ret R a w = (b, w', evs) -> b = a /\ w' = w /\ evs = [].
Proof. unfold ret. intros H. inversion H. auto. Qed.

Lemma bind_run {A B} (m : M R A) (k : A -> M R B) w b w2 evs :
  bind R m k w = (b, w2, evs) ->
  exists a w1 t1 t2,
    m w = (a, w1, t1) /\ k a w1 = (b, w2, t2) /\ evs = (t1 ++ t2)%list.
Proof.
  unfold bind. destruct (m w) as [[a w1] t1]. destruct (k a w1) as [[b' w2'] t2] eqn:Hk.
  intros H. inversion H. subst. exists a, w1, t1, t2. auto.
Qed.

Lemma new_Date_run w t w' evs :
  new_Date R w = (t, w', evs) -> evs = [EvNow t].
Proof. unfold new_Date. destruct (Date_now R w). intros H. inversion H. reflexivity. Qed.

Lemma call_axios_get_run url timeout w r w' evs :
  call_axios_get R url timeout w = (r, w', evs) -> evs = [EvCatalogGet url timeout r].
Proof.
  unfold call_axios_get. destruct (axios_get R url timeout w).
  intros H. inversion H. reflexivity.
Qed.

Lemma call_uuidv4_run w id w' evs :
  call_uuidv4 R w = (id, w', evs) -> evs = [EvUuid id] /\ id = fst (uuidv4 R w).
Proof.
  unfold call_uuidv4. destruct (uuidv4 R w). intros H. inversion H. auto.
Qed.

Lemma call_sendMessage_run p w r w' evs :
  call_sendMessage R p w = (r, w', evs) -> evs = [EvSend p r].
Proof.
  unfold call_sendMessage. destruct (sqs_sendMessage R p w).
  intros H. inversion H. reflexivity.
Qed.

End Runs.

(** Decomposes the hypotheses that describe a run. *)
Ltac run_inv :=
  repeat match goal with
  | H : ret _ _ _ = _ |- _ =>
      apply ret_run in H; destruct H as (? & ? & ?); subst
  | H : bind _ _ _ _ = _ |- _ =>
      apply bind_run in H; destruct H as (? & ? & ? & ? & ? & H & ?); subst
  | H : new_Date _ _ = _ |- _ => apply new_Date_run in H; subst
  | H : call_axios_get _ _ _ _ = _ |- _ => apply call_axios_get_run in H; subst
  | H : call_uuidv4 _ _ = _ |- _ =>
      apply call_uuidv4_run in H; destruct H as (? & ?); subst
  | H : call_sendMessage _ _ _ = _ |- _ => apply call_sendMessage_run in H; subst
  end.

(** ** Validation *)

Section ValidationFacts.

Variable R : Runtime.

Lemma validate_item_app item index errors :
  validate_item item index errors = (errors ++ item_errors item index)%list.
Proof.
  unfold item_errors, validate_item, push.
  destruct (string_rejected (get item "sku")), (quantity_rejected (get item "quantity"));
    cbn [app]; rewrite <- ?app_assoc, ?app_nil_r; reflexivity.
Qed.

Lemma validate_items_inr items : forall index errors,
  Forall (fun item => nullish item = false) items ->
  validate_items R items index errors = inr (errors ++ items_errors items index)%list.
Proof.
  induction items as [|item rest IH]; intros index errors Hall; cbn [validate_items items_errors].
  - now rewrite app_nil_r.
  - inversion Hall as [|? ? Hitem Hrest]; subst. rewrite Hitem.
    rewrite IH by assumption. rewrite validate_item_app, <- app_assoc. reflexivity.
Qed.

Lemma validate_items_inl items : forall index errors e,
  validate_items R items index errors = inl e ->
  exists item, In item items /\ nullish item = true.
Proof.
  induction items as [|item rest IH]; intros index errors e H; cbn [validate_items] in H.
  - discriminate.
  - destruct (nullish item) eqn:Hn.
    + exists item. split; [now left | assumption].
    + apply IH in H. destruct H as (it & Hin & Hit). exists it. split; [now right | assumption].
Qed.

Lemma validate_items_inr_inv items index errors out :
  validate_items R items index errors = inr out ->
  Forall (fun item => nullish item = false) items /\
  out = (errors ++ items_errors items index)%list.
Proof.
  intros H.
  assert (Hall : Forall (fun item => nullish item = false) items).
  { revert index errors H. induction items as [|item rest IH]; intros index errors H.
    - constructor.
    - cbn [validate_items] in H. destruct (nullish item) eqn:Hn; [discriminate|].
      constructor; [assumption | eauto]. }
  split; [assumption|].
  rewrite validate_items_inr in H by assumption. now inversion H.
Qed.

Lemma validate_order_ts_app order_ts errors :
  validate_order_ts R order_ts errors = (errors ++ validate_order_ts R order_ts [])%list.
Proof.
  unfold validate_order_ts, push.
  destruct (string_rejected order_ts); [reflexivity|].
  destruct order_ts; rewrite ?app_nil_r; try reflexivity.
  destruct (negb (Date_valid R s)); rewrite ?app_nil_r; reflexivity.
Qed.

Lemma validateOrderPayload_total payload :
  nullish payload = false ->
  Forall (fun item => nullish item = false) (items_of payload) ->
  validateOrderPayload R payload = inr (all_errors R payload).
Proof.
  intros Hp Hitems. unfold validateOrderPayload, all_errors, items_of in *.
  rewrite Hp. unfold when, push. cbv zeta.
  destruct (get payload "items") as [| |b|n|s|elems|fields] eqn:Hi;
    rewrite ?validate_items_inr by assumption;
    rewrite validate_order_ts_app;
    match goal with |- context [items_rejected ?v] => destruct (items_rejected v) end;
    destruct (string_rejected (get payload "order_id")),
             (string_rejected (get payload "customer_id"));
    cbn [app items_errors]; rewrite <- ?app_assoc; reflexivity.
Qed.

Lemma validateOrderPayload_inr_inv payload errors :
  validateOrderPayload R payload = inr errors ->
  nullish payload = false /\
  Forall (fun item => nullish item = false) (items_of payload) /\
  errors = all_errors R payload.
Proof.
  intros H.
  assert (Hp : nullish payload = false).
  { unfold validateOrderPayload in H. destruct (nullish payload); [discriminate | reflexivity]. }
  assert (Hall : Forall (fun item => nullish item = false) (items_of payload)).
  { unfold validateOrderPayload, items_of in *. rewrite Hp in H. cbv zeta in H.
    destruct (get payload "items"); try constructor.
    match type of H with
    | match (match validate_items R ?l ?i ?e with _ => _ end) with _ => _ end = _ =>
        destruct (validate_items R l i e) eqn:Hv; [discriminate|];
        apply validate_items_inr_inv in Hv; tauto
    | match validate_items R ?l ?i ?e with _ => _ end = _ =>
        destruct (validate_items R l i e) eqn:Hv; [discriminate|];
        apply validate_items_inr_inv in Hv; tauto
    end. }
  rewrite validateOrderPayload_total in H by assumption.
  inversion H. auto.
Qed.

Lemma validateOrderPayload_inl_inv payload e :
  validateOrderPayload R payload = inl e ->
  nullish payload = true \/ exists item, In item (items_of payload) /\ nullish item = true.
Proof.
  intros H. destruct (nullish payload) eqn:Hp; [now left | right].
  unfold validateOrderPayload, items_of in *. rewrite Hp in H. cbv zeta in H.
  destruct (get payload "items"); try discriminate.
  match type of H with
  | context [validate_items R ?l ?i ?e] =>
      destruct (validate_items R l i e) eqn:Hv; [|discriminate];
      apply validate_items_inl in Hv; assumption
  end.
Qed.

End ValidationFacts.

(** A payload on which validation finds nothing. *)
Section AcceptedPayloads.

Variable R : Runtime.

Lemma string_accepted v :
  string_rejected v = false -> exists s, v = VStr s /\ s <> "".
Proof.
  unfold string_rejected. destruct v; cbn; try discriminate;
    rewrite ?orb_true_r; try discriminate.
  rewrite orb_false_r, negb_involutive. intros H. exists s. split; [reflexivity|].
  now apply String.eqb_neq.
Qed.

Lemma when_nil rejected message : when rejected message = [] -> rejected = false.
Proof. destruct rejected; [discriminate | reflexivity]. Qed.

Lemma items_errors_nil items : forall index,
  Forall (fun item => nullish item = false) items ->
  items_errors items index = [] -> Forall accepted_item items.
Proof.
  induction items as [|item rest IH]; intros index Hall H; [constructor|].
  cbn [items_errors] in H. apply app_eq_nil in H. destruct H as [Hitem Hrest].
  inversion Hall; subst. constructor; [|eauto].
  unfold item_errors, validate_item, push in Hitem.
  destruct (string_rejected (get item "sku")) eqn:Hs;
    destruct (quantity_rejected (get item "quantity")) eqn:Hq; try discriminate.
  repeat split; auto using string_accepted.
Qed.

Lemma validation_passes_inv payload :
  validateOrderPayload R payload = inr [] ->
  nullish payload = false /\
  (exists order_id, get payload "order_id" = VStr order_id /\ order_id <> "") /\
  (exists customer_id, get payload "customer_id" = VStr customer_id /\ customer_id <> "") /\
  (exists items, get payload "items" = VArr items /\ items <> [] /\
                 Forall accepted_item items) /\
  (exists order_ts, get payload "order_ts" = VStr order_ts /\ Date_valid R order_ts = true).
Proof.
  intros H. apply validateOrderPayload_inr_inv in H. destruct H as (Hp & Hall & Herr).
  symmetry in Herr. unfold all_errors in Herr.
  repeat (apply app_eq_nil in Herr; destruct Herr as [? Herr]).
  repeat match goal with Hw : when _ _ = [] |- _ => apply when_nil in Hw end.
  split; [assumption|]. split; [auto using string_accepted|].
  split; [auto using string_accepted|]. split.
  - unfold items_of in *. unfold items_rejected in *.
    destruct (get payload "items") as [| |b|n|s|elems|fields]; cbn in *;
      rewrite ?orb_true_r in *; try discriminate.
    exists elems. split; [reflexivity|]. split.
    + destruct elems; [discriminate | congruence].
    + eauto using items_errors_nil.
  - unfold validate_order_ts in Herr.
    destruct (string_rejected (get payload "order_ts")) eqn:Hs; [discriminate|].
    apply string_accepted in Hs. destruct Hs as (ts & Hts & _). rewrite Hts in *.
    exists ts. split; [reflexivity|].
    destruct (Date_valid R ts); [reflexivity | discriminate].
Qed.

End AcceptedPayloads.

(** ** Enrichment *)

Section EnrichmentFacts.

Variable R : Runtime.

Lemma enrich_loop_run items : forall acc w r w' evs,
  Forall (fun item => nullish item = false) items ->
  enrich_loop R items acc w = (r, w', evs) ->
  enrich_outcome R items acc r evs.
Proof.
  induction items as [|item rest IH]; intros acc w r w' evs Hall H; cbn [enrich_loop] in H.
  - run_inv. replace acc with (acc ++ map enriched (combine [] []))%list at 2
      by (cbn; apply app_nil_r).
    apply (all_found R [] acc []). reflexivity.
  - inversion Hall as [|? ? Hitem Hrest]; subst. rewrite Hitem in H.
    run_inv. destruct x as [cause|data].
    + run_inv. apply (first_failure R _ _ [] item rest [] cause); reflexivity.
    + apply IH in H; [|assumption]. inversion H as [metas Hlen|before it after metas c Hsplit Hlen]; subst.
      * rewrite <- app_assoc.
        apply (all_found R (item :: rest) acc (data :: metas)). cbn. congruence.
      * apply (first_failure R (item :: before ++ it :: after) acc (item :: before) it after
                 (data :: metas) c); cbn; congruence.
Qed.

End EnrichmentFacts.

(** ** The pipeline *)

Section PipelineFacts.

Variable R : Runtime.

Lemma authenticateApiKey_run apiKey w a w' evs :
  authenticateApiKey R apiKey w = (a, w', evs) ->
  Forall is_clock evs /\
  match a with Respond r => status r = 401 | Next _ => True end.
Proof.
  unfold authenticateApiKey. intros H.
  destruct apiKey as [k|]; [|run_inv; split; [constructor | reflexivity]].
  destruct (String.eqb k ""); [run_inv; split; [constructor | reflexivity]|].
  destruct (VALID_API_KEYS_get k) as [keyData|]; [|run_inv; split; [constructor | reflexivity]].
  destruct (keyData_expiresAt keyData) as [expires|]; [|run_inv; split; [constructor | exact I]].
  run_inv. destruct (expires <? x); run_inv; cbn; split;
    try (repeat constructor); reflexivity || exact I.
Qed.

Lemma assemble_handler_throws payload e w :
  validateOrderPayload R payload = inl e ->
  assemble_handler R payload w = (internal_error (error_message e), w, []).
Proof. intros H. unfold assemble_handler. rewrite H. reflexivity. Qed.

Lemma assemble_handler_invalid payload errors w :
  validateOrderPayload R payload = inr errors -> errors <> [] ->
  assemble_handler R payload w = (validation_failed errors, w, []).
Proof.
  intros H Hne. unfold assemble_handler. rewrite H.
  destruct errors; [congruence | reflexivity].
Qed.

Lemma accepted_items_not_nullish items :
  Forall accepted_item items -> Forall (fun item => nullish item = false) items.
Proof. apply Forall_impl. intros item H. apply H. Qed.

Lemma assemble_handler_run payload items w resp w' evs :
  validateOrderPayload R payload = inr [] ->
  get payload "items" = VArr items ->
  assemble_handler R payload w = (resp, w', evs) ->
  assembly_outcome R payload items resp evs.
Proof.
  intros Hv Hitems H.
  pose proof (validation_passes_inv R payload Hv) as (_ & _ & _ & (l & Hl & _ & Hacc) & _).
  rewrite Hitems in Hl. inversion Hl; subst l. clear Hl.
  unfold assemble_handler in H. rewrite Hv in H. cbn [List.length Nat.ltb Nat.leb] in H.
  run_inv. unfold enrichOrderWithMetadata in *. rewrite Hitems in *. cbn [iterate] in *.
  match goal with
  | He : enrich_loop R items [] _ = _ |- _ =>
      apply enrich_loop_run in He; [|auto using accepted_items_not_nullish];
      inversion He as [metas Hlen|before item after metas cause Hsplit Hlen]; subst
  end.
  - run_inv. unfold publishToSQS in *. cbn [nullish assembled_order] in *. run_inv.
    rewrite app_nil_l in *.
    match goal with
    | Hs : match ?r with inl _ => _ | inr _ => _ end _ = _
      |- context [EvNow ?t :: _] =>
        match goal with
        | |- context [EvUuid (fst (uuidv4 R ?wu))] =>
            pose proof (order_assembled R payload items metas t wu r Hlen) as Hout
        end;
        destruct r
    end; run_inv; cbn in Hout |- *; rewrite ?app_nil_r; exact Hout.
  - run_inv. rewrite app_nil_r. apply (enrichment_failed R payload _ before item after metas cause); auto.
Qed.

Lemma post_orders_assemble_run req w resp w' evs :
  post_orders_assemble R req w = (resp, w', evs) ->
  match req_body req with
  | ParseError message => resp = internal_error (VStr message) /\ evs = []
  | Parsed payload =>
      exists a w1 evs0,
        authenticateApiKey R (x_api_key req) w = (a, w1, evs0) /\
        Forall is_clock evs0 /\
        match a with
        | Respond r => resp = r /\ status r = 401 /\ evs = evs0
        | Next _ =>
            exists evs1,
              assemble_handler R payload w1 = (resp, w', evs1) /\
              evs = (evs0 ++ evs1)%list
        end
  end.
Proof.
  unfold post_orders_assemble. intros H. destruct (req_body req) as [payload|message].
  - apply bind_run in H. destruct H as (a & w1 & evs0 & evs1 & Ha & Hk & ->).
    exists a, w1, evs0. pose proof (authenticateApiKey_run _ _ _ _ _ Ha) as [Hclock Hst].
    split; [assumption|]. split; [assumption|].
    destruct a as [r|keyData].
    + run_inv. rewrite app_nil_r. auto.
    + exists evs1. auto.
  - run_inv. auto.
Qed.

End PipelineFacts.

(** ** Traces *)

Section TraceFacts.

Variable R : Runtime.

Lemma clock_no_send evs : Forall is_clock evs -> filter is_send evs = [].
Proof.
  induction 1 as [|e evs He _ IH]; [reflexivity|].
  destruct e; cbn in *; try contradiction. assumption.
Qed.

Lemma clock_no_uuid evs : Forall is_clock evs -> filter is_uuid evs = [].
Proof.
  induction 1 as [|e evs He _ IH]; [reflexivity|].
  destruct e; cbn in *; try contradiction. assumption.
Qed.

Lemma clock_lookup_ok evs : Forall is_clock evs -> Forall lookup_ok evs.
Proof. apply Forall_impl. intros [] H; cbn in *; tauto. Qed.

Lemma found_no_send l : filter is_send (map (found R) l) = [].
Proof. induction l; cbn; auto. Qed.

Lemma found_no_uuid l : filter is_uuid (map (found R) l) = [].
Proof. induction l; cbn; auto. Qed.

Lemma found_lookup_ok l : Forall lookup_ok (map (found R) l).
Proof. induction l; cbn; constructor; cbn; auto. Qed.


Lemma pipeline_run req w resp w' evs :
  post_orders_assemble R req w = (resp, w', evs) ->
  pipeline_outcome R req w resp evs.
Proof.
  intros H. apply post_orders_assemble_run in H.
  destruct (req_body req) as [payload|message] eqn:Hbody.
  - destruct H as (a & w1 & evs0 & Ha & Hclock & H).
    assert (Hacc : key_accepted R (x_api_key req) w
                   = match a with Next _ => true | Respond _ => false end).
    { unfold key_accepted. rewrite Ha. reflexivity. }
    destruct a as [r|keyData].
    + destruct H as (-> & Hst & ->). eapply key_refused; eauto.
    + destruct H as (evs1 & Hh & ->).
      destruct (validateOrderPayload R payload) as [e|errors] eqn:Hv.
      * rewrite (assemble_handler_throws R _ _ _ Hv) in Hh. inversion Hh; subst.
        rewrite app_nil_r. eapply validation_threw; eauto.
      * destruct errors as [|err errors].
        -- pose proof (validation_passes_inv R payload Hv)
             as (_ & _ & _ & (items & Hitems & _ & Hall) & _).
           eapply payload_processed; eauto using assemble_handler_run.
        -- rewrite (assemble_handler_invalid R _ _ _ Hv) in Hh by discriminate.
           inversion Hh; subst. rewrite app_nil_r.
           eapply payload_refused; eauto. discriminate.
  - destruct H as [-> ->]. now apply body_unparsed.
Qed.

End TraceFacts.

(** ** What holds of every run *)

(** A property of runs that holds of the empty run, composes, and holds
    of each call to a collaborator holds of every request. *)
Section RunInvariants.

Variable R : Runtime.
Variable P : World R -> list event -> World R -> Prop.

Hypothesis P_nil : forall w, P w [] w.
Hypothesis P_app :
  forall w t1 w1 t2 w2, P w t1 w1 -> P w1 t2 w2 -> P w (t1 ++ t2)%list w2.
Hypothesis P_now :
  forall w, P w [EvNow (fst (Date_now R w))] (snd (Date_now R w)).
Hypothesis P_get :
  forall url timeout w,
    P w [EvCatalogGet url timeout (fst (axios_get R url timeout w))]
      (snd (axios_get R url timeout w)).
Hypothesis P_uuid :
  forall w, P w [EvUuid (fst (uuidv4 R w))] (snd (uuidv4 R w)).
Hypothesis P_send :
  forall params w,
    P w [EvSend params (fst (sqs_sendMessage R params w))]
      (snd (sqs_sendMessage R params w)).

Lemma respects_ret {A} (a : A) : respects R P (ret R a).
Proof. intros w a' w' evs H. apply ret_run in H. destruct H as (_ & -> & ->). apply P_nil. Qed.

Lemma respects_bind {A B} (m : M R A) (k : A -> M R B) :
  respects R P m -> (forall a, respects R P (k a)) -> respects R P (bind R m k).
Proof.
  intros Hm Hk w b w' evs H. apply bind_run in H.
  destruct H as (a & w1 & t1 & t2 & H1 & H2 & ->).
  apply (P_app w t1 w1 t2 w'); [exact (Hm _ _ _ _ H1) | exact (Hk _ _ _ _ _ H2)].
Qed.

Lemma respects_new_Date : respects R P (new_Date R).
Proof.
  intros w t w' evs H. unfold new_Date in H. pose proof (P_now w) as Hp.
  destruct (Date_now R w). inversion H; subst. exact Hp.
Qed.

Lemma respects_call_axios_get url timeout : respects R P (call_axios_get R url timeout).
Proof.
  intros w r w' evs H. unfold call_axios_get in H. pose proof (P_get url timeout w) as Hp.
  destruct (axios_get R url timeout w). inversion H; subst. exact Hp.
Qed.

Lemma respects_call_uuidv4 : respects R P (call_uuidv4 R).
Proof.
  intros w id w' evs H. unfold call_uuidv4 in H. pose proof (P_uuid w) as Hp.
  destruct (uuidv4 R w). inversion H; subst. exact Hp.
Qed.

Lemma respects_call_sendMessage params : respects R P (call_sendMessage R params).
Proof.
  intros w r w' evs H. unfold call_sendMessage in H. pose proof (P_send params w) as Hp.
  destruct (sqs_sendMessage R params w). inversion H; subst. exact Hp.
Qed.

Lemma respects_authenticateApiKey apiKey : respects R P (authenticateApiKey R apiKey).
Proof.
  unfold authenticateApiKey. destruct apiKey as [k|]; [|apply respects_ret].
  destruct (String.eqb k ""); [apply respects_ret|].
  destruct (VALID_API_KEYS_get k) as [keyData|]; [|apply respects_ret].
  destruct (keyData_expiresAt keyData) as [expires|]; [|apply respects_ret].
  apply respects_bind; [apply respects_new_Date|].
  intros now. destruct (expires <? now); apply respects_ret.
Qed.

Lemma respects_enrich_loop items : forall acc, respects R P (enrich_loop R items acc).
Proof.
  induction items as [|item rest IH]; intros acc; cbn [enrich_loop].
  - apply respects_ret.
  - destruct (nullish item); [apply respects_ret|].
    apply respects_bind; [apply respects_call_axios_get|].
    intros [cause|data]; [apply respects_ret | apply IH].
Qed.

Lemma respects_enrichOrderWithMetadata items : respects R P (enrichOrderWithMetadata R items).
Proof.
  unfold enrichOrderWithMetadata. destruct (iterate items);
    [apply respects_ret | apply respects_enrich_loop].
Qed.

Lemma respects_publishToSQS order : respects R P (publishToSQS R order).
Proof.
  unfold publishToSQS. destruct (nullish order); [apply respects_ret|].
  apply respects_bind; [apply respects_call_sendMessage|].
  intros [cause|MessageId]; apply respects_ret.
Qed.

Lemma respects_assemble_handler payload : respects R P (assemble_handler R payload).
Proof.
  unfold assemble_handler.
  destruct (validateOrderPayload R payload) as [e|errors]; [apply respects_ret|].
  destruct (0 <? List.length errors)%nat; [apply respects_ret|].
  apply respects_bind; [apply respects_enrichOrderWithMetadata|].
  intros [error|enrichedItems]; [apply respects_ret|].
  apply respects_bind; [apply respects_new_Date|]. intros now.
  apply respects_bind; [apply respects_call_uuidv4|]. intros assembly_id.
  apply respects_bind; [apply respects_publishToSQS|].
  intros [error|MessageId]; apply respects_ret.
Qed.

Lemma respects_post_orders_assemble req : respects R P (post_orders_assemble R req).
Proof.
  unfold post_orders_assemble. destruct (req_body req) as [payload|message];
    [|apply respects_ret].
  apply respects_bind; [apply respects_authenticateApiKey|].
  intros [r|keyData]; [apply respects_ret | apply respects_assemble_handler].
Qed.

End RunInvariants.

(** Every event of a request is one the runtime really produced. *)
Lemma pipeline_events_genuine (R : Runtime) (req : request) (w w' : World R)
    (resp : response) (evs : list event) :
  post_orders_assemble R req w = (resp, w', evs) -> Forall (genuine R) evs.
Proof.
  apply (respects_post_orders_assemble R (fun _ evs _ => Forall (genuine R) evs)).
  - intros. constructor.
  - intros. apply Forall_app. auto.
  - intros w0. repeat constructor. cbn. eauto.
  - intros url timeout w0. repeat constructor. cbn. eauto.
  - intros w0. repeat constructor. cbn. eauto.
  - intros params w0. repeat constructor. cbn. eauto.
Qed.

Lemma in_combine_exists {A B} (l : list A) (l' : list B) (a : A) :
  List.length l' = List.length l -> In a l -> exists b, In (a, b) (combine l l').
Proof.
  revert l'. induction l as [|x l IH]; intros l' Hlen Hin; [contradiction|].
  destruct l' as [|y l']; [discriminate|]. cbn in *. destruct Hin as [->|Hin].
  - exists y. now left.
  - destruct (IH l') as (b & Hb); [congruence | assumption|]. exists b. now right.
Qed.

(** An event cannot occur in a trace all of whose events satisfy a
    predicate it violates. *)
Ltac absurd_event :=
  match goal with
  | H : In ?e ?l, F : Forall ?P ?l |- _ =>
      let X := fresh in
      pose proof (proj1 (Forall_forall P l) F e H) as X; cbn in X; contradiction
  end.

Lemma clock_no_lookup (evs : list event) :
  Forall is_clock evs -> filter is_lookup evs = [].
Proof.
  induction 1 as [|e evs He _ IH]; [reflexivity|].
  destruct e; cbn in *; try contradiction. assumption.
Qed.

Lemma found_all_lookups (R : Runtime) (l : list (value * value)) :
  List.length (filter is_lookup (map (found R) l)) = List.length l.
Proof. induction l; cbn; auto. Qed.

(** ** Enrichment failure (C6) *)

(** Whenever a catalog lookup recorded in a request's trace was rejected,
    it is the last thing the request did, and the answer is the 502 that
    names its SKU. *)
Lemma rejected_lookup_is_last (R : Runtime) (req : request) (w w' : World R)
    (resp : response) (evs : list event) (url : string) (timeout : Z) (cause : string) :
  post_orders_assemble R req w = (resp, w', evs) ->
  In (EvCatalogGet url timeout (inl cause)) evs ->
  exists payload items item sku earlier,
    req_body req = Parsed payload /\
    get payload "items" = VArr items /\
    In item items /\
    get item "sku" = VStr sku /\
    url = CARD_CATALOG_BASE_URL R ++ "/catalog/sku/" ++ sku /\
    resp = json 502 [ ("error", VStr ("Failed to enrich item with SKU " ++ sku));
                      ("details", VStr cause) ] /\
    evs = (earlier ++ [EvCatalogGet url timeout (inl cause)])%list /\
    Forall lookup_ok earlier /\
    filter is_send evs = [] /\
    filter is_uuid evs = [].
Proof.
  intros Hrun Hin. apply pipeline_run in Hrun.
  inversion Hrun as [message Hb|payload r e Hb Hk Hst Hc|payload e e' Hb Hk Hv Hc
                    |payload errors e' Hb Hk Hv Hne Hc
                    |payload items r evs0 evs1 Hb Hk Hv Hitems Hacc Hc Hout];
    subst; try contradiction; try absurd_event.
  inversion Hout as [before item after metas cause' Hsplit Hlen
                    |metas now wu r' Hlen]; subst.
  - apply in_app_or in Hin. destruct Hin as [Hin|Hin]; [absurd_event|].
    apply in_app_or in Hin. destruct Hin as [Hin|Hin].
    { pose proof (found_lookup_ok R (combine before metas)). absurd_event. }
    destruct Hin as [Heq|[]]. unfold failed in Heq. inversion Heq; subst. clear Heq.
    assert (Hitem : accepted_item item).
    { eapply Forall_forall; [exact Hacc|]. apply in_or_app. right. now left. }
    destruct Hitem as (_ & (sku & Hsku & _) & _).
    exists payload, (before ++ item :: after)%list, item, sku,
           (evs0 ++ map (found R) (combine before metas))%list.
    rewrite Hsku. unfold bad_gateway, failed. rewrite Hsku.
    repeat split; auto.
    + apply in_or_app. right. now left.
    + now rewrite app_assoc.
    + apply Forall_app. split; [now apply clock_lookup_ok | apply found_lookup_ok].
    + rewrite !filter_app, clock_no_send, found_no_send by assumption. reflexivity.
    + rewrite !filter_app, clock_no_uuid, found_no_uuid by assumption. reflexivity.
  - exfalso. apply in_app_or in Hin. destruct Hin as [Hin|Hin]; [absurd_event|].
    apply in_app_or in Hin. destruct Hin as [Hin|Hin].
    { pose proof (found_lookup_ok R (combine items metas)). absurd_event. }
    cbn in Hin. intuition discriminate.
Qed.

(** A lookup the trace records as answered was answered by the catalog in
    some world. *)
Lemma found_events_resolved (R : Runtime) (evs : list event) (l : list (value * value))
    (x meta : value) :
  Forall (genuine R) evs ->
  (forall e, In e (map (found R) l) -> In e evs) ->
  In (x, meta) l ->
  exists w0, fst (axios_get R (catalog_url R (get x "sku")) 5000 w0) = inr meta.
Proof.
  intros Hgen Hsub Hin.
  assert (He : In (found R (x, meta)) evs) by (apply Hsub, in_map, Hin).
  pose proof (proj1 (Forall_forall _ _) Hgen _ He) as (w0 & Hw0). cbn in Hw0.
  exists w0. now symmetry.
Qed.

(** C6. Take a request with an accepted key and a payload that passes
    validation, one of whose items has a SKU the catalog rejects in every
    world (not found, timeout or transport error: any rejected promise).
    Whatever the other items are, the request is answered 502 with the
    single error "Failed to enrich item with SKU <sku>" and the cause as
    details.  The SKU named is that of the first item whose lookup was
    rejected in this run: every item before it was resolved, its own
    lookup was rejected with the reported cause, and the unresolvable
    item is that item or comes after it; when every item with another SKU
    always resolves, the SKU named is the unresolvable one.  The rejected
    lookup is the last call of the request: no later item is looked up, no
    identifier is generated and nothing is published. *)
Theorem unresolvable_item_answers_502 (R : Runtime) (req : request) (w w' : World R)
    (resp : response) (evs : list event) (payload : value) (items : list value)
    (item : value) :
  req_body req = Parsed payload ->
  key_accepted R (x_api_key req) w = true ->
  validateOrderPayload R payload = inr [] ->
  get payload "items" = VArr items ->
  In item items ->
  never_resolves R (get item "sku") ->
  post_orders_assemble R req w = (resp, w', evs) ->
  exists before failing after sku cause earlier,
    items = (before ++ failing :: after)%list /\
    (failing = item \/ In item after) /\
    Forall (fun x => exists w0 data,
              fst (axios_get R (catalog_url R (get x "sku")) 5000 w0) = inr data)
           before /\
    get failing "sku" = VStr sku /\
    (exists w0, fst (axios_get R (catalog_url R (VStr sku)) 5000 w0) = inl cause) /\
    resp = json 502 [ ("error", VStr ("Failed to enrich item with SKU " ++ sku));
                      ("details", VStr cause) ] /\
    evs = (earlier
           ++ [EvCatalogGet (CARD_CATALOG_BASE_URL R ++ "/catalog/sku/" ++ sku) 5000
                 (inl cause)])%list /\
    Forall lookup_ok earlier /\
    List.length (filter is_lookup evs) = S (List.length before) /\
    filter is_send evs = [] /\
    filter is_uuid evs = [] /\
    ((forall x, In x items -> get x "sku" <> get item "sku" ->
                always_resolves R (get x "sku")) ->
     get item "sku" = VStr sku).
Proof.
  intros Hbody Hkey Hvalid Hitems Hin Hnever Hrun.
  pose proof (pipeline_events_genuine R req w w' resp evs Hrun) as Hgen.
  apply pipeline_run in Hrun.
  inversion Hrun as [message Hb|payload' r e Hb Hk Hst Hc|payload' e e' Hb Hk Hv Hc
                    |payload' errors e' Hb Hk Hv Hne Hc
                    |payload' items' r evs0 evs1 Hb Hk Hv Hitems' Hacc Hc Hout];
    subst; try congruence.
  assert (payload' = payload) by congruence. subst payload'.
  assert (items' = items) by congruence. subst items'.
  assert (Hresolved : forall l0 x meta,
            (forall e, In e (map (found R) l0) -> In e (evs0 ++ evs1)%list) ->
            In (x, meta) l0 ->
            exists w0, fst (axios_get R (catalog_url R (get x "sku")) 5000 w0) = inr meta).
  { intros l0 x meta. apply found_events_resolved. exact Hgen. }
  assert (Hunresolved : forall l0 meta,
            (forall e, In e (map (found R) l0) -> In e (evs0 ++ evs1)%list) ->
            ~ In (item, meta) l0).
  { intros l0 meta Hsub Hl0. destruct (Hresolved l0 item meta Hsub Hl0) as (w0 & Hw0).
    destruct (Hnever w0) as (cause & Hcause). congruence. }
  inversion Hout as [before failing after metas cause Hsplit Hlen
                    |metas now wu r' Hlen]; subst.
  - assert (Hsub : forall e, In e (map (found R) (combine before metas)) ->
                             In e (evs0 ++ (map (found R) (combine before metas)
                                            ++ [failed R failing cause]))%list).
    { intros e He. apply in_or_app. right. apply in_or_app. now left. }
    assert (Hfailing : accepted_item failing).
    { eapply Forall_forall; [exact Hacc|]. apply in_or_app. right. now left. }
    destruct Hfailing as (_ & (sku & Hsku & _) & _).
    assert (Hcause : exists w0,
              fst (axios_get R (catalog_url R (VStr sku)) 5000 w0) = inl cause).
    { assert (He : In (failed R failing cause)
                      (evs0 ++ (map (found R) (combine before metas)
                                ++ [failed R failing cause]))%list).
      { apply in_or_app. right. apply in_or_app. right. now left. }
      pose proof (proj1 (Forall_forall _ _) Hgen _ He) as (w0 & Hw0).
      cbn in Hw0. rewrite Hsku in Hw0. exists w0. now symmetry. }
    exists before, failing, after, sku, cause,
           (evs0 ++ map (found R) (combine before metas))%list.
    split; [reflexivity|].
    split.
    { apply in_app_or in Hin. destruct Hin as [Hin|[Hin|Hin]]; auto.
      exfalso. destruct (in_combine_exists before metas item Hlen Hin) as (meta & Hmeta).
      exact (Hunresolved _ meta Hsub Hmeta). }
    split.
    { apply Forall_forall. intros x Hx.
      destruct (in_combine_exists before metas x Hlen Hx) as (meta & Hmeta).
      destruct (Hresolved _ x meta Hsub Hmeta) as (w0 & Hw0). now exists w0, meta. }
    split; [exact Hsku|].
    split; [exact Hcause|].
    split; [unfold bad_gateway, enrichment_message; rewrite Hsku; reflexivity|].
    split.
    { unfold failed, catalog_url. rewrite Hsku. cbn [ToString].
      now rewrite app_assoc. }
    split.
    { apply Forall_app. split; [now apply clock_lookup_ok | apply found_lookup_ok]. }
    split.
    { rewrite !filter_app, !length_app, clock_no_lookup, found_all_lookups
        by assumption.
      rewrite length_combine, Hlen, Nat.min_id. cbn. lia. }
    split.
    { rewrite !filter_app, clock_no_send, found_no_send by assumption. reflexivity. }
    split.
    { rewrite !filter_app, clock_no_uuid, found_no_uuid by assumption. reflexivity. }
    intros Hothers. destruct Hcause as (w0 & Hw0).
    assert (Hitem : accepted_item item).
    { eapply Forall_forall; [exact Hacc|exact Hin]. }
    destruct Hitem as (_ & (sku' & Hsku' & _) & _).
    destruct (string_dec sku sku') as [->|Hneq]; [exact Hsku'|].
    exfalso.
    assert (Hfin : In failing (before ++ failing :: after)%list).
    { apply in_or_app. right. now left. }
    assert (Hdiff : get failing "sku" <> get item "sku") by congruence.
    destruct (Hothers failing Hfin Hdiff w0) as (data & Hdata).
    rewrite Hsku in Hdata. congruence.
  - exfalso.
    destruct (in_combine_exists items metas item Hlen Hin) as (meta & Hmeta).
    apply (Hunresolved (combine items metas) meta); [|exact Hmeta].
    intros e He. apply in_or_app. right. apply in_or_app. now left.
Qed.

(** At a concrete order: SKU100 resolves, INVALID_SKU never does. *)
Lemma unresolvable_item_answers_502_witness :
  exists before failing after sku cause earlier,
    [Demo.item "SKU100" 1; Demo.item "INVALID_SKU" 1; Demo.item "SKU200" 3]
      = (before ++ failing :: after)%list /\
    (failing = Demo.item "INVALID_SKU" 1 \/ In (Demo.item "INVALID_SKU" 1) after) /\
    Forall (fun x => exists w0 data,
              fst (axios_get Demo.runtime
                     (catalog_url Demo.runtime (get x "sku")) 5000 w0) = inr data)
           before /\
    get failing "sku" = VStr sku /\
    (exists w0, fst (axios_get Demo.runtime
                       (catalog_url Demo.runtime (VStr sku)) 5000 w0) = inl cause) /\
    {| status := 502;
       body := VObj [ ("error", VStr "Failed to enrich item with SKU INVALID_SKU");
                      ("details", VStr "Request failed with status code 404") ] |}
      = json 502 [ ("error", VStr ("Failed to enrich item with SKU " ++ sku));
                   ("details", VStr cause) ] /\
    [ EvCatalogGet "http://localhost:8080/catalog/sku/SKU100" 5000
        (inr (VObj [ ("name", VStr "Birthday Card"); ("price_cents", VNum (Fin 499)) ]));
      EvCatalogGet "http://localhost:8080/catalog/sku/INVALID_SKU" 5000
        (inl "Request failed with status code 404") ]
      = (earlier
         ++ [EvCatalogGet
               (CARD_CATALOG_BASE_URL Demo.runtime ++ "/catalog/sku/" ++ sku) 5000
               (inl cause)])%list /\
    Forall lookup_ok earlier /\
    List.length
      (filter is_lookup
         [ EvCatalogGet "http://localhost:8080/catalog/sku/SKU100" 5000
             (inr (VObj [ ("name", VStr "Birthday Card");
                          ("price_cents", VNum (Fin 499)) ]));
           EvCatalogGet "http://localhost:8080/catalog/sku/INVALID_SKU" 5000
             (inl "Request failed with status code 404") ])
      = S (List.length before) /\
    filter is_send
      [ EvCatalogGet "http://localhost:8080/catalog/sku/SKU100" 5000
          (inr (VObj [ ("name", VStr "Birthday Card"); ("price_cents", VNum (Fin 499)) ]));
        EvCatalogGet "http://localhost:8080/catalog/sku/INVALID_SKU" 5000
          (inl "Request failed with status code 404") ] = [] /\
    filter is_uuid
      [ EvCatalogGet "http://localhost:8080/catalog/sku/SKU100" 5000
          (inr (VObj [ ("name", VStr "Birthday Card"); ("price_cents", VNum (Fin 499)) ]));
        EvCatalogGet "http://localhost:8080/catalog/sku/INVALID_SKU" 5000
          (inl "Request failed with status code 404") ] = [] /\
    ((forall x,
        In x [Demo.item "SKU100" 1; Demo.item "INVALID_SKU" 1; Demo.item "SKU200" 3] ->
        get x "sku" <> get (Demo.item "INVALID_SKU" 1) "sku" ->
        always_resolves Demo.runtime (get x "sku")) ->
     get (Demo.item "INVALID_SKU" 1) "sku" = VStr sku).
Proof.
  apply (unresolvable_item_answers_502 Demo.runtime
           (Demo.post Demo.valid_key
              (Demo.order [Demo.item "SKU100" 1; Demo.item "INVALID_SKU" 1;
                           Demo.item "SKU200" 3]))
           Demo.start Demo.start _ _
           (Demo.order [Demo.item "SKU100" 1; Demo.item "INVALID_SKU" 1;
                        Demo.item "SKU200" 3])).
  - reflexivity.
  - vm_compute. reflexivity.
  - vm_compute. reflexivity.
  - reflexivity.
  - right. left. reflexivity.
  - intros w0. exists "Request failed with status code 404". reflexivity.
  - vm_compute. reflexivity.
Defined.

(** ** Successful requests (C1, C9) *)

Section SuccessfulRuns.

Variable R : Runtime.

(** A request with an accepted key and an accepted payload, all of whose
    lookups were answered and whose message the queue took. *)
Lemma successful_run req payload w resp w' evs :
  req_body req = Parsed payload ->
  validateOrderPayload R payload = inr [] ->
  key_accepted R (x_api_key req) w = true ->
  post_orders_assemble R req w = (resp, w', evs) ->
  Forall lookup_ok evs ->
  Forall send_ok evs ->
  exists order_id wu MessageId params,
    get payload "order_id" = VStr order_id /\
    resp = success_response (VStr order_id) (fst (uuidv4 R wu)) MessageId /\
    filter is_uuid evs = [EvUuid (fst (uuidv4 R wu))] /\
    filter is_send evs = [EvSend params (inr MessageId)].
Proof.
  intros Hbody Hvalid Hkey Hrun Hlook Hsend. apply pipeline_run in Hrun.
  inversion Hrun as [message Hb|p r e Hb Hk Hst Hc|p e e' Hb Hk Hv Hc
                    |p errors e' Hb Hk Hv Hne Hc
                    |p items r evs0 evs1 Hb Hk Hv Hitems Hacc Hc Hout];
    subst; try congruence;
    rewrite Hbody in Hb; inversion Hb; subst p; try congruence.
  pose proof (validation_passes_inv R payload Hvalid) as (_ & (oid & Hoid & _) & _).
  inversion Hout as [before item after metas cause Hsplit Hlen
                    |metas now wu r' Hlen]; subst.
  - exfalso. apply Forall_app in Hlook. destruct Hlook as [_ Hlook].
    apply Forall_app in Hlook. destruct Hlook as [_ Hlook].
    inversion Hlook as [|? ? Hbad _]; subst. exact Hbad.
  - destruct r' as [cause|MessageId].
    + exfalso. apply Forall_app in Hsend. destruct Hsend as [_ Hsend].
      apply Forall_app in Hsend. destruct Hsend as [_ Hsend].
      inversion Hsend as [|? ? _ Hs1]; subst. inversion Hs1 as [|? ? _ Hs2]; subst.
      inversion Hs2 as [|? ? Hbad _]; subst. exact Hbad.
    + rewrite Hoid. eexists oid, wu, MessageId, _. split; [reflexivity|].
      split; [reflexivity|].
      rewrite !filter_app, clock_no_uuid, clock_no_send, found_no_uuid, found_no_send
        by assumption.
      split; reflexivity.
Qed.

End SuccessfulRuns.

(** C1. A request with an accepted key whose payload passes validation,
    all of whose catalog lookups succeed and whose publication succeeds is
    answered 200 with [success = true], the payload's own [order_id], an
    [assembly_id] in UUID form (the one identifier generated for this
    request), a message string, and the message identifier assigned by the
    queue. *)
Theorem valid_request_answers_200 (R : Runtime) (req : request) (payload : value)
    (w w' : World R) (resp : response) (evs : list event) :
  uuid_contract R ->
  req_body req = Parsed payload ->
  validateOrderPayload R payload = inr [] ->
  key_accepted R (x_api_key req) w = true ->
  post_orders_assemble R req w = (resp, w', evs) ->
  Forall lookup_ok evs ->
  Forall send_ok evs ->
  exists assembly_id message MessageId params,
    status resp = 200 /\
    body resp = VObj [ ("success", VBool true);
                       ("order_id", get payload "order_id");
                       ("assembly_id", VStr assembly_id);
                       ("message", VStr message);
                       ("sqs_message_id", VStr MessageId) ] /\
    uuid_form assembly_id = true /\
    filter is_uuid evs = [EvUuid assembly_id] /\
    filter is_send evs = [EvSend params (inr MessageId)].
Proof.
  intros Huuid Hbody Hvalid Hkey Hrun Hlook Hsend.
  destruct (successful_run R req payload w resp w' evs Hbody Hvalid Hkey Hrun Hlook Hsend)
    as (oid & wu & mid & params & Hoid & -> & Hu & Hs).
  exists (fst (uuidv4 R wu)), "Order assembled and published successfully", mid, params.
  rewrite Hoid. repeat split; auto.
Qed.

Lemma hex_digit_is_hex n : (n < 16)%nat -> class_matches Hex (Demo.hex_digit n) = true.
Proof.
  intros Hn. do 16 (destruct n as [|n]; [reflexivity|]). lia.
Qed.

Lemma hex_digits_match width : forall n acc p,
  pattern_matches (repeat Hex width ++ p) (Demo.hex_digits width n acc)
  = pattern_matches p acc.
Proof.
  induction width as [|width IH]; intros n acc p; [reflexivity|].
  cbn [Demo.hex_digits].
  replace (repeat Hex (S width) ++ p)%list with (repeat Hex width ++ Hex :: p)%list.
  - rewrite IH. cbn [pattern_matches].
    rewrite hex_digit_is_hex by (apply Nat.mod_upper_bound; discriminate).
    reflexivity.
  - change (Hex :: p) with ([Hex] ++ p)%list. rewrite app_assoc.
    rewrite <- (repeat_cons width Hex). reflexivity.
Qed.

Lemma demo_uuid_contract : uuid_contract Demo.runtime.
Proof.
  intros w. cbn [uuidv4 Demo.runtime Demo.fresh_uuid fst].
  unfold uuid_form. cbn [String.append].
  change uuid_pattern with
    ([Hex; Hex; Hex; Hex; Hex; Hex; Hex; Hex; Dash; Hex; Hex; Hex; Hex; Dash; Four;
      Hex; Hex; Hex; Dash; Variant; Hex; Hex; Hex; Dash] ++ (repeat Hex 12 ++ []))%list.
  cbn [app pattern_matches].
  change (class_matches Hex "0") with true. change (class_matches Dash "-") with true.
  change (class_matches Four "4") with true. change (class_matches Variant "8") with true.
  cbn [andb]. apply hex_digits_match.
Qed.

(** The valid order of the acceptance tests, with the never-expiring key. *)
Lemma valid_request_answers_200_witness :
  exists assembly_id message MessageId params,
    status (fst (fst (post_orders_assemble Demo.runtime
                        (Demo.post Demo.valid_key Demo.validOrder) Demo.start))) = 200 /\
    body (fst (fst (post_orders_assemble Demo.runtime
                      (Demo.post Demo.valid_key Demo.validOrder) Demo.start)))
      = VObj [ ("success", VBool true);
               ("order_id", get Demo.validOrder "order_id");
               ("assembly_id", VStr assembly_id);
               ("message", VStr message);
               ("sqs_message_id", VStr MessageId) ] /\
    uuid_form assembly_id = true /\
    filter is_uuid (snd (post_orders_assemble Demo.runtime
                           (Demo.post Demo.valid_key Demo.validOrder) Demo.start))
      = [EvUuid assembly_id] /\
    filter is_send (snd (post_orders_assemble Demo.runtime
                           (Demo.post Demo.valid_key Demo.validOrder) Demo.start))
      = [EvSend params (inr MessageId)].
Proof.
  apply (valid_request_answers_200 Demo.runtime
           (Demo.post Demo.valid_key Demo.validOrder) Demo.validOrder Demo.start
           (snd (fst (post_orders_assemble Demo.runtime
                        (Demo.post Demo.valid_key Demo.validOrder) Demo.start)))).
  - exact demo_uuid_contract.
  - reflexivity.
  - vm_compute. reflexivity.
  - vm_compute. reflexivity.
  - vm_compute. reflexivity.
  - vm_compute. repeat constructor.
  - vm_compute. repeat constructor.
Defined.








(** ** Publication (C7) *)

(** What [publishToSQS] does with an order object: one call of the
    transport, whose rejection is rethrown as the 503 object. *)
Lemma publishToSQS_run (R : Runtime) (fields : list (string * value))
    (w w' : World R) (res : thrown + string) (evs : list event) :
  publishToSQS R (VObj fields) w = (res, w', evs) ->
  exists r,
    evs = [EvSend (publish_params R (VObj fields)) r] /\
    res = match r with
          | inl cause => inl (Raised 503 "Failed to publish order to queue" cause)
          | inr MessageId => inr MessageId
          end.
Proof.
  unfold publishToSQS. cbn [nullish]. intros H. run_inv.
  exists x. destruct x; run_inv; split; reflexivity.
Qed.



(** ** Enrichment results (C5) *)

Lemma nth_error_combine {A B} (l : list A) : forall (l' : list B) i a,
  List.length l' = List.length l ->
  nth_error l i = Some a ->
  exists b, nth_error (combine l l') i = Some (a, b).
Proof.
  induction l as [|x l IH]; intros l' i a Hlen Hnth.
  - destruct i; discriminate.
  - destruct l' as [|y l']; [discriminate|]. destruct i as [|i]; cbn in *.
    + inversion Hnth; subst. now exists y.
    + apply IH; [congruence | assumption].
Qed.

(** C5. On items that are objects, when every catalog lookup succeeds the
    enrichment returns exactly one enriched item per input item, in the
    order of the input; the i-th one keeps the i-th item's [sku] and
    [quantity] and carries the metadata the i-th lookup (the one for that
    item's SKU) returned.  Enriched items are returned only if every lookup
    of the call succeeded. *)
Theorem enrichment_keeps_items_in_order (R : Runtime) (items : list value)
    (w w' : World R) (r : thrown + list value) (evs : list event) :
  Forall (fun item => nullish item = false) items ->
  enrichOrderWithMetadata R (VArr items) w = (r, w', evs) ->
  (Forall lookup_ok evs ->
   exists enrichedItems,
     r = inr enrichedItems /\
     List.length enrichedItems = List.length items /\
     forall i item,
       nth_error items i = Some item ->
       exists metadata,
         nth_error enrichedItems i
           = Some (VObj [ ("sku", get item "sku");
                          ("quantity", get item "quantity");
                          ("metadata", metadata) ]) /\
         nth_error evs i
           = Some (EvCatalogGet
                     (CARD_CATALOG_BASE_URL R ++ "/catalog/sku/" ++ ToString R (get item "sku"))
                     5000 (inr metadata))) /\
  (forall enrichedItems,
     r = inr enrichedItems ->
     Forall lookup_ok evs /\ List.length evs = List.length items).
Proof.
  intros Hitems Hrun. unfold enrichOrderWithMetadata in Hrun. cbn [iterate] in Hrun.
  apply enrich_loop_run in Hrun; [|assumption].
  inversion Hrun as [metas Hlen|before item after metas cause Hsplit Hlen]; subst.
  - split.
    + intros _. exists (map enriched (combine items metas)). split; [reflexivity|]. split.
      * rewrite length_map, length_combine. lia.
      * intros i item Hnth.
        destruct (nth_error_combine items metas i item Hlen Hnth) as (metadata & Hc).
        exists metadata. split.
        -- rewrite (map_nth_error enriched _ _ Hc). reflexivity.
        -- rewrite (map_nth_error (found R) _ _ Hc). reflexivity.
    + intros enrichedItems _. split; [apply found_lookup_ok|].
      rewrite length_map, length_combine. lia.
  - split.
    + intros Hok. exfalso. apply Forall_app in Hok. destruct Hok as [_ Hok].
      inversion Hok as [|? ? Hbad _]; subst. exact Hbad.
    + intros enrichedItems Heq. discriminate.
Qed.

(** Two resolvable items. *)
Lemma enrichment_keeps_items_in_order_witness :
  (exists enrichedItems,
     fst (fst (enrichOrderWithMetadata Demo.runtime
                 (VArr [Demo.item "SKU200" 1; Demo.item "SKU100" 3]) Demo.start))
       = inr enrichedItems /\
     List.length enrichedItems = List.length [Demo.item "SKU200" 1; Demo.item "SKU100" 3] /\
     forall i item,
       nth_error [Demo.item "SKU200" 1; Demo.item "SKU100" 3] i = Some item ->
       exists metadata,
         nth_error enrichedItems i
           = Some (VObj [ ("sku", get item "sku");
                          ("quantity", get item "quantity");
                          ("metadata", metadata) ]) /\
         nth_error
           (snd (enrichOrderWithMetadata Demo.runtime
                   (VArr [Demo.item "SKU200" 1; Demo.item "SKU100" 3]) Demo.start)) i
           = Some (EvCatalogGet
                     (CARD_CATALOG_BASE_URL Demo.runtime ++ "/catalog/sku/"
                      ++ ToString Demo.runtime (get item "sku"))
                     5000 (inr metadata))) /\
  (forall enrichedItems,
     fst (fst (enrichOrderWithMetadata Demo.runtime
                 (VArr [Demo.item "SKU200" 1; Demo.item "SKU100" 3]) Demo.start))
       = inr enrichedItems ->
     Forall lookup_ok
       (snd (enrichOrderWithMetadata Demo.runtime
               (VArr [Demo.item "SKU200" 1; Demo.item "SKU100" 3]) Demo.start)) /\
     List.length
       (snd (enrichOrderWithMetadata Demo.runtime
               (VArr [Demo.item "SKU200" 1; Demo.item "SKU100" 3]) Demo.start))
       = List.length [Demo.item "SKU200" 1; Demo.item "SKU100" 3]).
Proof.
  destruct (enrichment_keeps_items_in_order Demo.runtime
              [Demo.item "SKU200" 1; Demo.item "SKU100" 3] Demo.start
              (snd (fst (enrichOrderWithMetadata Demo.runtime
                           (VArr [Demo.item "SKU200" 1; Demo.item "SKU100" 3]) Demo.start)))
              (fst (fst (enrichOrderWithMetadata Demo.runtime
                           (VArr [Demo.item "SKU200" 1; Demo.item "SKU100" 3]) Demo.start)))
              (snd (enrichOrderWithMetadata Demo.runtime
                      (VArr [Demo.item "SKU200" 1; Demo.item "SKU100" 3]) Demo.start)))
    as [Hall Honly].
  - repeat constructor.
  - vm_compute. reflexivity.
  - split; [|exact Honly]. apply Hall. vm_compute. repeat constructor.
Defined.

(** ** Item quantities (C4) *)

(** What the check of the source rejects: a quantity that is not of type
    number (so also a missing one), or a number that is zero or negative. *)
Lemma quantity_rejected_iff (q : value) :
  quantity_rejected q = true <->
  (forall n, q <> VNum n) \/ (exists n, q = VNum n /\ le_zero n = true).
Proof.
  unfold quantity_rejected. destruct q; cbn; split; intros H;
    try (left; intros ? ?; discriminate); try reflexivity.
  - right. eauto.
  - destruct H as [H|(m & Hm & Hle)]; [now specialize (H n)|]. now inversion Hm; subst.
Qed.

Example quantity_checks :
  quantity_rejected VUndefined = true /\
  quantity_rejected (VStr "2") = true /\
  quantity_rejected (VNum (Fin 0)) = true /\
  quantity_rejected (VNum (Fin (-1))) = true /\
  quantity_rejected (VNum (Fin 2)) = false /\
  quantity_rejected (VNum (Fin (3 # 2))) = false /\
  quantity_rejected (VNum NaN) = false.
Proof. repeat split. Qed.

Lemma items_errors_quantity (items : list value) :
  forall start index item,
    nth_error items index = Some item ->
    quantity_rejected (get item "quantity") = true ->
    In (quantity_message (start + index)) (items_errors items start).
Proof.
  induction items as [|x items IH]; intros start index item Hnth Hq.
  - destruct index; discriminate.
  - cbn [items_errors]. apply in_or_app. destruct index as [|index]; cbn in Hnth.
    + inversion Hnth; subst. left. rewrite Nat.add_0_r.
      unfold item_errors, validate_item, push. rewrite Hq.
      apply in_or_app. right. now left.
    + right. replace (start + S index)%nat with (S start + index)%nat by lia. eauto.
Qed.

(** C4, as the code has it.  In a payload whose [items] array holds no
    [null] element, an item whose quantity is not of type number (missing
    or non-numeric) or is a number less than or equal to zero is reported
    with "items[i].quantity must be a number greater than 0", and the
    handler rejects the order with 400 and the list of all errors.  (The
    check does not ask for an integer.) *)
Theorem nonpositive_quantity_rejected (R : Runtime) (payload : value)
    (items : list value) (index : nat) (item : value) (w : World R) :
  nullish payload = false ->
  get payload "items" = VArr items ->
  Forall (fun item => nullish item = false) items ->
  nth_error items index = Some item ->
  quantity_rejected (get item "quantity") = true ->
  exists errors,
    validateOrderPayload R payload = inr errors /\
    In ("items[" ++ index_string index ++ "].quantity must be a number greater than 0")
       errors /\
    assemble_handler R payload w
      = (json 400 [ ("error", VStr "Validation failed");
                    ("details", VArr (map VStr errors)) ], w, []).
Proof.
  intros Hp Hitems Hall Hnth Hq.
  assert (Hof : items_of payload = items) by (unfold items_of; now rewrite Hitems).
  assert (Hv : validateOrderPayload R payload = inr (all_errors R payload)).
  { apply validateOrderPayload_total; [assumption | now rewrite Hof]. }
  assert (Hin : In (quantity_message index) (all_errors R payload)).
  { unfold all_errors. rewrite Hof. do 3 (apply in_or_app; right).
    apply in_or_app. left. apply (items_errors_quantity items 0 index item); assumption. }
  exists (all_errors R payload). split; [assumption|]. split; [exact Hin|].
  apply assemble_handler_invalid; [assumption|].
  intros Hnil. rewrite Hnil in Hin. contradiction.
Qed.

(** The order of the acceptance tests with a zero quantity. *)
Lemma nonpositive_quantity_rejected_witness :
  exists errors,
    validateOrderPayload Demo.runtime (Demo.order [Demo.item "SKU100" 0]) = inr errors /\
    In ("items[" ++ index_string 0 ++ "].quantity must be a number greater than 0")
       errors /\
    assemble_handler Demo.runtime (Demo.order [Demo.item "SKU100" 0]) Demo.start
      = (json 400 [ ("error", VStr "Validation failed");
                    ("details", VArr (map VStr errors)) ], Demo.start, []).
Proof.
  apply (nonpositive_quantity_rejected Demo.runtime (Demo.order [Demo.item "SKU100" 0])
           [Demo.item "SKU100" 0] 0 (Demo.item "SKU100" 0) Demo.start).
  - reflexivity.
  - reflexivity.
  - repeat constructor.
  - reflexivity.
  - reflexivity.
Defined.

(** C4 as stated fails: a quantity of 1.5 is not an integer greater than
    zero, yet validation reports nothing for the order and the request is
    answered 200. *)
Lemma fractional_quantity_accepted :
  spec_positive_integer (get (Demo.item "SKU100" (3 # 2)) "quantity") = false /\
  validateOrderPayload Demo.runtime (Demo.order [Demo.item "SKU100" (3 # 2)]) = inr [] /\
  status (fst (fst (post_orders_assemble Demo.runtime
                      (Demo.post Demo.valid_key (Demo.order [Demo.item "SKU100" (3 # 2)]))
                      Demo.start))) = 200.
Proof. vm_compute. repeat split. Qed.

(** The scenarios of the specification with an empty [items] array and
    with several violations at once. *)
Example empty_items_scenario :
  fst (fst (post_orders_assemble Demo.runtime
              (Demo.post Demo.valid_key (Demo.order [])) Demo.start))
  = json 400 [ ("error", VStr "Validation failed");
               ("details", VArr [VStr "items is required and must be a non-empty array"]) ].
Proof. reflexivity. Qed.

Example several_violations_scenario :
  fst (fst (post_orders_assemble Demo.runtime
              (Demo.post Demo.valid_key
                 (VObj [ ("customer_id", VStr "");
                         ("items", VArr [ VObj [ ("quantity", VNum (Fin 0)) ]; VStr "x" ]);
                         ("order_ts", VStr "yesterday") ]))
              Demo.start))
  = json 400 [ ("error", VStr "Validation failed");
               ("details",
                VArr [ VStr "order_id is required and must be a string";
                       VStr "customer_id is required and must be a string";
                       VStr "items[0].sku is required and must be a string";
                       VStr "items[0].quantity must be a number greater than 0";
                       VStr "items[1].sku is required and must be a string";
                       VStr "items[1].quantity must be a number greater than 0";
                       VStr "order_ts must be a valid ISO 8601 timestamp" ]) ].
Proof. reflexivity. Qed.

(** ** Unparseable bodies (C8) *)

(** C8, as the code has it.  A request whose body the JSON body parser
    cannot parse never reaches the route: whatever its API key, the
    error-handling middleware answers 500 with error "Internal server
    error" and the parser's message as details, and nothing else happens
    (no clock read, no validation, no lookup, no publication). *)
Theorem unparseable_body_answers_500 (R : Runtime) (req : request)
    (message : string) (w : World R) :
  req_body req = ParseError message ->
  post_orders_assemble R req w
  = (json 500 [ ("error", VStr "Internal server error"); ("details", VStr message) ],
     w, []).
Proof.
  intros Hbody. unfold post_orders_assemble. rewrite Hbody. reflexivity.
Qed.

(** A body that is not JSON, sent without an API key. *)
Lemma unparseable_body_answers_500_witness :
  post_orders_assemble Demo.runtime
    {| x_api_key := None;
       req_body := ParseError "Unexpected token i in JSON at position 0" |} Demo.start
  = (json 500 [ ("error", VStr "Internal server error");
                ("details", VStr "Unexpected token i in JSON at position 0") ],
     Demo.start, []).
Proof.
  apply (unparseable_body_answers_500 Demo.runtime
           {| x_api_key := None;
              req_body := ParseError "Unexpected token i in JSON at position 0" |}).
  reflexivity.
Defined.

(** C8 as stated fails: the status is not 400. *)
Lemma unparseable_body_not_400 :
  status (fst (fst (post_orders_assemble Demo.runtime
                      {| x_api_key := Demo.valid_key;
                         req_body := ParseError "Unexpected token i in JSON at position 0" |}
                      Demo.start))) <> 400.
Proof. vm_compute. discriminate. Qed.

(** ** Authentication (C2, C10) *)

(** C10. An [x-api-key] header holding the empty string is answered 401
    with the details of a missing key, exactly as a request without the
    header is, and not with the details of an unknown key. *)
Theorem empty_api_key_is_missing_key (R : Runtime) (payload : value) (w : World R) :
  post_orders_assemble R {| x_api_key := Some ""; req_body := Parsed payload |} w
  = (json 401 [ ("error", VStr "Unauthorized");
                ("details", VStr "API key is required. Provide it in the X-API-Key header.") ],
     w, []) /\
  authenticateApiKey R (Some "") w = authenticateApiKey R None w /\
  fst (fst (authenticateApiKey R (Some "") w))
  <> Respond (unauthorized "Invalid API key provided.").
Proof. repeat split. cbn. discriminate. Qed.

Section AuthenticationFacts.

Variable R : Runtime.

(** The keys the middleware refuses: an absent or empty one, one for
    which the table lookup yields [undefined], and one whose expiry lies
    strictly before the current time. *)
Lemma key_refused_iff apiKey w :
  key_accepted R apiKey w = false <->
  apiKey = None \/ apiKey = Some "" \/
  (exists k, apiKey = Some k /\ VALID_API_KEYS_get k = None) \/
  (exists k keyData expires,
     apiKey = Some k /\ VALID_API_KEYS_get k = Some keyData /\
     keyData_expiresAt keyData = Some expires /\ expires < fst (Date_now R w)).
Proof.
  unfold key_accepted, authenticateApiKey. destruct apiKey as [k|]; [|cbn; tauto].
  destruct (String.eqb k "") eqn:Hk.
  { apply String.eqb_eq in Hk. subst. cbn. tauto. }
  apply String.eqb_neq in Hk.
  destruct (VALID_API_KEYS_get k) as [keyData|] eqn:Hget.
  2:{ cbn. split; [|reflexivity]. intros _. right. right. left. eauto. }
  destruct (keyData_expiresAt keyData) as [expires|] eqn:Hexp.
  - unfold bind, new_Date, ret. destruct (Date_now R w) as [now w1]. cbn [fst].
    destruct (expires <? now) eqn:Hlt; cbn [fst]; split; try reflexivity.
    + intros _. do 3 right. exists k, keyData, expires. apply Z.ltb_lt in Hlt. auto.
    + discriminate.
    + apply Z.ltb_ge in Hlt.
      intros [H|[H|[(k' & H & Hn)|(k' & d & t & H & Hd & Ht & Hlate)]]];
        try discriminate; try congruence.
      inversion H; subst k'. rewrite Hget in Hd. inversion Hd; subst d.
      rewrite Hexp in Ht. inversion Ht; subst t. lia.
  - cbn. split; [discriminate|].
    intros [H|[H|[(k' & H & Hn)|(k' & d & t & H & Hd & Ht & Hlate)]]];
      try discriminate; try congruence.
    all: inversion H; subst k'; rewrite Hget in Hd; inversion Hd; subst d; congruence.
Qed.

(** A refused key is answered 401 by the middleware alone: the response
    and the trace (at most a clock read) are the same for every payload,
    so no validation rule has a say. *)
Lemma refused_key_answers_401 apiKey w :
  key_accepted R apiKey w = false ->
  exists resp w' evs,
    status resp = 401 /\ Forall is_clock evs /\
    forall payload,
      post_orders_assemble R {| x_api_key := apiKey; req_body := Parsed payload |} w
      = (resp, w', evs).
Proof.
  intros Hk. unfold key_accepted in Hk.
  destruct (authenticateApiKey R apiKey w) as [[a w1] evs0] eqn:Ha. cbn [fst] in Hk.
  destruct a as [r|keyData]; [|discriminate].
  pose proof (authenticateApiKey_run R _ _ _ _ _ Ha) as [Hclock Hst].
  exists r, w1, evs0. split; [assumption|]. split; [assumption|].
  intros payload. unfold post_orders_assemble. cbn [req_body x_api_key].
  unfold bind. rewrite Ha. cbn. now rewrite app_nil_r.
Qed.

End AuthenticationFacts.

(** C2 does not hold of the code.  The key [constructor] is not an entry
    of the key table, yet reading [VALID_API_KEYS['constructor']] finds the
    member inherited from [Object.prototype], which is truthy and has no
    [expiresAt]: the middleware calls [next()], and the request is handled
    like an authenticated one (200 for the valid order, 400 for an order
    without items). *)
Theorem inherited_member_passes_authentication :
  own_key "constructor" VALID_API_KEYS = None /\
  (forall (R : Runtime) (payload : value) (w : World R),
     post_orders_assemble R
       {| x_api_key := Some "constructor"; req_body := Parsed payload |} w
     = assemble_handler R payload w) /\
  status (fst (fst (post_orders_assemble Demo.runtime
                      (Demo.post (Some "constructor") Demo.validOrder) Demo.start))) = 200 /\
  status (fst (fst (post_orders_assemble Demo.runtime
                      (Demo.post (Some "constructor") (Demo.order [])) Demo.start))) = 400.
Proof.
  split; [reflexivity|]. split; [|split; vm_compute; reflexivity].
  intros R payload w. unfold post_orders_assemble. cbn [req_body x_api_key].
  unfold bind. cbn.
  destruct (assemble_handler R payload w) as [[resp w'] evs]. reflexivity.
Qed.

(** ** Exhaustive validation (C3) *)

Section Exhaustive.

Variable R : Runtime.

Lemma string_rejected_spec v : string_rejected v = negb (spec_nonempty_string v).
Proof.
  unfold string_rejected. destruct v; cbn; rewrite ?orb_true_r; try reflexivity.
  now rewrite orb_false_r.
Qed.

Lemma quantity_rejected_spec q :
  q <> VNum NaN -> quantity_rejected q = negb (spec_positive_number q).
Proof.
  intros Hnan. unfold quantity_rejected. destruct q as [| |b|n|s|l|fs]; try reflexivity.
  destruct n as [|neg|x]; cbn; [congruence | now rewrite negb_involutive |].
  unfold Qle_bool. cbn. rewrite Z.mul_1_r, Z.ltb_antisym, negb_involutive. reflexivity.
Qed.

Lemma items_rejected_spec v :
  items_rejected v = negb match v with VArr (_ :: _) => true | _ => false end.
Proof.
  unfold items_rejected. destruct v as [| |b|n|s|l|fs]; cbn; rewrite ?orb_true_r; try reflexivity.
  destruct l; reflexivity.
Qed.

Lemma items_errors_spec payload (rest : list value) : forall start,
  (forall i, nth_error (items_of payload) (start + i) = nth_error rest i) ->
  Forall readable_item rest ->
  items_errors rest start
  = map (rule_error payload)
      (filter (violated R payload) (flat_map item_rules (seq start (List.length rest)))).
Proof.
  induction rest as [|item rest IH]; intros start Hnth Hall; [reflexivity|].
  inversion Hall as [|? ? [_ Hq] Hrest]; subst.
  pose proof (Hnth 0%nat) as H0. rewrite Nat.add_0_r in H0. cbn in H0.
  assert (Hvs : violated R payload (Rule_item_sku start)
                = string_rejected (get item "sku")).
  { unfold violated. cbn [spec_holds]. now rewrite H0, string_rejected_spec. }
  assert (Hvq : violated R payload (Rule_item_quantity start)
                = quantity_rejected (get item "quantity")).
  { unfold violated. cbn [spec_holds]. now rewrite H0, (quantity_rejected_spec _ Hq). }
  cbn [items_errors List.length seq flat_map item_rules app filter].
  rewrite Hvs, Hvq.
  rewrite (IH (S start));
    [|intros i; replace (S start + i)%nat with (start + S i)%nat by lia;
      exact (Hnth (S i)) | assumption].
  unfold item_errors, validate_item, push.
  destruct (string_rejected (get item "sku")),
           (quantity_rejected (get item "quantity")); reflexivity.
Qed.

Lemma string_rejected_not_string v : typeof_string v = false -> string_rejected v = true.
Proof. unfold string_rejected. intros ->. apply orb_true_r. Qed.

Lemma order_ts_errors_spec payload :
  validate_order_ts R (get payload "order_ts") []
  = map (rule_error payload) (filter (violated R payload) [Rule_order_ts]).
Proof.
  unfold validate_order_ts, violated, push. cbn [filter spec_holds].
  destruct (get payload "order_ts") as [| |b|n|s|l|fs] eqn:Hts;
    try (cbn [negb map rule_error];
         rewrite Hts, string_rejected_not_string by reflexivity; reflexivity).
  unfold string_rejected at 1. cbn [truthy typeof_string].
  destruct (String.eqb s "") eqn:He, (Date_valid R s);
    cbn [negb orb andb map rule_error]; rewrite ?Hts;
    unfold string_rejected; cbn [truthy typeof_string]; rewrite ?He; reflexivity.
Qed.

(** Validation is exhaustive on every document none of whose items is
    [null] (and whose quantities come from a JSON body, which cannot hold
    NaN): the error list has exactly one entry for each violated rule, in
    the order of the rules. *)
Lemma validation_is_exhaustive payload :
  nullish payload = false ->
  Forall readable_item (items_of payload) ->
  validateOrderPayload R payload
  = inr (map (rule_error payload) (filter (violated R payload) (spec_rules payload))).
Proof.
  intros Hp Hall.
  rewrite validateOrderPayload_total;
    [|assumption | eapply Forall_impl; [|exact Hall]; intros item H; apply H].
  f_equal. unfold all_errors, spec_rules.
  rewrite !filter_app, !map_app.
  rewrite <- (items_errors_spec payload (items_of payload) 0) by (auto; intros; reflexivity).
  rewrite <- order_ts_errors_spec.
  cbn [filter]. unfold violated, when. cbn [spec_holds].
  rewrite !string_rejected_spec, items_rejected_spec.
  destruct (spec_nonempty_string (get payload "order_id")),
           (spec_nonempty_string (get payload "customer_id")),
           (match get payload "items" with VArr (_ :: _) => true | _ => false end);
    reflexivity.
Qed.

(** With an accepted key such a document with a violated rule is
    answered 400 with that list as details. *)
Lemma violations_answer_400 payload w :
  nullish payload = false ->
  Forall readable_item (items_of payload) ->
  filter (violated R payload) (spec_rules payload) <> [] ->
  assemble_handler R payload w
  = (json 400 [ ("error", VStr "Validation failed");
                ("details",
                 VArr (map VStr (map (rule_error payload)
                                   (filter (violated R payload) (spec_rules payload))))) ],
     w, []).
Proof.
  intros Hp Hall Hne. apply assemble_handler_invalid.
  - now apply validation_is_exhaustive.
  - intros Hnil. apply map_eq_nil in Hnil. contradiction.
Qed.

End Exhaustive.

(** C3 does not hold of the code.  The document [{"items":[null]}]
    violates the rules on [order_id], [customer_id] and [order_ts], but
    reading [item.sku] on the [null] element throws inside
    [validateOrderPayload]; the handler's [catch] answers 500 with the
    engine's message, and no list of violations is produced. *)
Theorem null_item_answers_500 (R : Runtime) (w : World R) :
  violated R (VObj [ ("items", VArr [VNull]) ]) Rule_order_id = true /\
  violated R (VObj [ ("items", VArr [VNull]) ]) Rule_customer_id = true /\
  violated R (VObj [ ("items", VArr [VNull]) ]) Rule_order_ts = true /\
  post_orders_assemble R
    {| x_api_key := Some "sk-test-valid-key-123456789";
       req_body := Parsed (VObj [ ("items", VArr [VNull]) ]) |} w
  = (json 500 [ ("error", VStr "Internal server error");
                ("details", VStr (TypeError_message R VNull "sku")) ],
     w, []).
Proof. repeat split. Qed.


(** * Further properties of the service *)

(** ** Who is let in *)

Lemma mem_string_In (s : string) (l : list string) :
  mem_string s l = true <-> In s l.
Proof.
  unfold mem_string. rewrite existsb_exists. split.
  - intros (x & Hin & Heq). apply String.eqb_eq in Heq. now subst.
  - intros Hin. exists s. split; [assumption | apply String.eqb_refl].
Qed.

(** The keys the authentication middleware lets through are exactly: the
    never-expiring test key; the limited key, as long as the clock has not
    passed its expiry (at the expiry instant itself it is still let in);
    and the names of the members of [Object.prototype].  The comparison is
    exact, so a key in another letter case is not let in. *)
Theorem accepted_keys_characterised (R : Runtime) (k : string) (w : World R) :
  key_accepted R (Some k) w = true <->
  k = "sk-test-valid-key-123456789" \/
  (k = "sk-test-limited-key-987654321" /\ fst (Date_now R w) <= 1772236800000) \/
  In k Object_prototype_members.
Proof.
  unfold key_accepted, authenticateApiKey.
  destruct (String.eqb_spec k "") as [->|Hne].
  { cbn. split; [discriminate|].
    intros [H|[[H _]|H]]; try discriminate. cbn in H. intuition discriminate. }
  unfold VALID_API_KEYS_get, VALID_API_KEYS. cbn [own_key].
  destruct (String.eqb_spec "sk-test-valid-key-123456789" k) as [<-|Hv].
  { cbn. split; auto. }
  destruct (String.eqb_spec "sk-test-limited-key-987654321" k) as [<-|Hl].
  { cbn [keyData_expiresAt expiresAt]. unfold bind, new_Date, ret.
    destruct (Date_now R w) as [now w1]. cbn [fst].
    unfold date_2026_02_28.
    destruct (1772236800000 <? now) eqn:Hlt; cbn [fst].
    - apply Z.ltb_lt in Hlt. split; [discriminate|].
      intros [H|[[_ H]|H]]; try discriminate; try lia.
      cbn in H. intuition discriminate.
    - apply Z.ltb_ge in Hlt. split; auto. }
  destruct (mem_string k Object_prototype_members) eqn:Hm.
  - unfold ret. cbn [keyData_expiresAt fst]. apply mem_string_In in Hm. split; auto.
  - unfold ret. cbn [fst]. split; [discriminate|].
    intros [H|[[H _]|H]]; try congruence.
    apply mem_string_In in H. congruence.
Qed.

(** The limited key at the very instant of its expiry. *)
Lemma accepted_keys_characterised_witness :
  key_accepted Demo.runtime (Some "sk-test-limited-key-987654321")
    {| Demo.clock := 1772236800000; Demo.issued := 0; Demo.queue_reachable := true |}
  = true.
Proof.
  apply (proj2 (accepted_keys_characterised Demo.runtime
                  "sk-test-limited-key-987654321"
                  {| Demo.clock := 1772236800000; Demo.issued := 0;
                     Demo.queue_reachable := true |})).
  right. left. split; [reflexivity | cbn; lia].
Defined.

(** ** Why a request is refused *)

(** A request whose key is not let in is answered 401 "Unauthorized" by
    the middleware alone, with the same response whatever the document,
    and is told why: a missing or empty key, a key the table does not
    know, or the limited key after its expiry.  Only the last case reads
    the clock; no case looks anything up or publishes anything. *)
Theorem refused_request_is_told_why (R : Runtime) (apiKey : option string)
    (payload : value) (w : World R) :
  key_accepted R apiKey w = false ->
  exists details evs w',
    post_orders_assemble R {| x_api_key := apiKey; req_body := Parsed payload |} w
    = (json 401 [ ("error", VStr "Unauthorized"); ("details", VStr details) ], w', evs) /\
    (((apiKey = None \/ apiKey = Some "") /\
      details = "API key is required. Provide it in the X-API-Key header." /\
      evs = []) \/
     ((exists k, apiKey = Some k /\ k <> "" /\ VALID_API_KEYS_get k = None) /\
      details = "Invalid API key provided." /\
      evs = []) \/
     (apiKey = Some "sk-test-limited-key-987654321" /\
      details = "API key has expired." /\
      evs = [EvNow (fst (Date_now R w))] /\
      1772236800000 < fst (Date_now R w))).
Proof.
  unfold key_accepted, post_orders_assemble. cbn [req_body x_api_key].
  unfold authenticateApiKey.
  destruct apiKey as [k|].
  2:{ intros _. eexists _, _, _. split; [reflexivity|]. left. auto. }
  destruct (String.eqb_spec k "") as [->|Hne].
  { intros _. eexists _, _, _. split; [reflexivity|]. left. auto. }
  destruct (VALID_API_KEYS_get k) as [keyData|] eqn:Hget.
  2:{ intros _. eexists _, _, _. split; [reflexivity|]. right. left.
      split; [exists k; auto | auto]. }
  unfold VALID_API_KEYS_get, VALID_API_KEYS in Hget. cbn [own_key] in Hget.
  destruct (String.eqb_spec "sk-test-valid-key-123456789" k) as [<-|Hv].
  { inversion Hget; subst. cbn. discriminate. }
  destruct (String.eqb_spec "sk-test-limited-key-987654321" k) as [<-|Hl].
  - inversion Hget; subst. cbn [keyData_expiresAt expiresAt].
    unfold bind, new_Date, ret, date_2026_02_28.
    destruct (Date_now R w) as [now w1]. cbn [fst].
    destruct (1772236800000 <? now) eqn:Hlt; cbn [fst]; [|discriminate].
    intros _. apply Z.ltb_lt in Hlt.
    eexists _, _, _. split; [reflexivity|]. right. right. auto.
  - destruct (mem_string k Object_prototype_members); [|discriminate].
    inversion Hget; subst. cbn. discriminate.
Qed.

(** The limited key one millisecond after its expiry. *)
Lemma refused_request_is_told_why_witness :
  exists details evs w',
    post_orders_assemble Demo.runtime
      {| x_api_key := Some "sk-test-limited-key-987654321";
         req_body := Parsed Demo.validOrder |}
      {| Demo.clock := 1772236800001; Demo.issued := 0; Demo.queue_reachable := true |}
    = (json 401 [ ("error", VStr "Unauthorized"); ("details", VStr details) ], w', evs) /\
    (((Some "sk-test-limited-key-987654321" = None \/
       Some "sk-test-limited-key-987654321" = Some "") /\
      details = "API key is required. Provide it in the X-API-Key header." /\
      evs = []) \/
     ((exists k, Some "sk-test-limited-key-987654321" = Some k /\ k <> "" /\
                 VALID_API_KEYS_get k = None) /\
      details = "Invalid API key provided." /\
      evs = []) \/
     (Some "sk-test-limited-key-987654321" = Some "sk-test-limited-key-987654321" /\
      details = "API key has expired." /\
      evs = [EvNow (fst (Date_now Demo.runtime
                           {| Demo.clock := 1772236800001; Demo.issued := 0;
                              Demo.queue_reachable := true |}))] /\
      1772236800000 < fst (Date_now Demo.runtime
                             {| Demo.clock := 1772236800001; Demo.issued := 0;
                                Demo.queue_reachable := true |}))).
Proof.
  apply (refused_request_is_told_why Demo.runtime
           (Some "sk-test-limited-key-987654321") Demo.validOrder
           {| Demo.clock := 1772236800001; Demo.issued := 0;
              Demo.queue_reachable := true |}).
  reflexivity.
Defined.

(** ** Which documents validation accepts *)

Lemma string_rejected_false_iff (v : value) :
  string_rejected v = false <-> exists s, v = VStr s /\ s <> "".
Proof.
  split; [apply string_accepted|].
  intros (s & -> & Hs). unfold string_rejected. cbn.
  apply String.eqb_neq in Hs. now rewrite Hs.
Qed.

Lemma quantity_rejected_false_iff (q : value) :
  quantity_rejected q = false <-> exists n, q = VNum n /\ le_zero n = false.
Proof.
  unfold quantity_rejected. destruct q; cbn; split; intros H;
    try discriminate; try (destruct H as (m & Hm & _); discriminate).
  - eauto.
  - destruct H as (m & Hm & Hle). now inversion Hm; subst.
Qed.

Lemma item_errors_nil_iff (item : value) (index : nat) :
  nullish item = false ->
  (item_errors item index = [] <-> passes_item_checks item).
Proof.
  intros Hn. unfold item_errors, validate_item, push, passes_item_checks.
  destruct (string_rejected (get item "sku")) eqn:Hs;
    destruct (quantity_rejected (get item "quantity")) eqn:Hq; cbn [app].
  - split; [discriminate|]. intros (sku & n & Hsku & Hne & _).
    assert (string_rejected (get item "sku") = false)
      by (apply string_rejected_false_iff; eauto). congruence.
  - split; [discriminate|]. intros (sku & n & Hsku & Hne & _).
    assert (string_rejected (get item "sku") = false)
      by (apply string_rejected_false_iff; eauto). congruence.
  - split; [discriminate|]. intros (sku & n & _ & _ & Hqn & Hle).
    assert (quantity_rejected (get item "quantity") = false)
      by (apply quantity_rejected_false_iff; eauto). congruence.
  - split; [|reflexivity]. intros _.
    apply string_rejected_false_iff in Hs. destruct Hs as (sku & Hsku & Hne).
    apply quantity_rejected_false_iff in Hq. destruct Hq as (n & Hqn & Hle).
    exists sku, n. auto.
Qed.

Lemma passes_item_checks_not_nullish (item : value) :
  passes_item_checks item -> nullish item = false.
Proof. intros (sku & n & Hsku & _). destruct item; try reflexivity; discriminate. Qed.

Lemma items_errors_nil_iff (items : list value) : forall index,
  Forall (fun item => nullish item = false) items ->
  (items_errors items index = [] <-> Forall passes_item_checks items).
Proof.
  induction items as [|item rest IH]; intros index Hall.
  - cbn. split; auto.
  - inversion Hall as [|? ? Hitem Hrest]; subst. cbn [items_errors]. split.
    + intros H. apply app_eq_nil in H. destruct H as [H1 H2]. constructor.
      * now apply (item_errors_nil_iff item index Hitem).
      * now apply (IH (S index) Hrest).
    + intros H. inversion H as [|? ? Hp Hps]; subst.
      apply (item_errors_nil_iff item index Hitem) in Hp. rewrite Hp.
      now apply (IH (S index) Hrest).
Qed.

(** Validation returns the empty error list exactly for the documents that
    have a non-empty string [order_id] and [customer_id], a non-empty
    [items] array each of whose elements has a non-empty string [sku] and a
    [quantity] of type number that is not [<= 0], and a non-empty string
    [order_ts] that the engine parses as a date. *)
Theorem validation_accepts_exactly (R : Runtime) (payload : value) :
  validateOrderPayload R payload = inr [] <->
  exists order_id customer_id items order_ts,
    get payload "order_id" = VStr order_id /\ order_id <> "" /\
    get payload "customer_id" = VStr customer_id /\ customer_id <> "" /\
    get payload "items" = VArr items /\ items <> [] /\
    Forall passes_item_checks items /\
    get payload "order_ts" = VStr order_ts /\ order_ts <> "" /\
    Date_valid R order_ts = true.
Proof.
  split.
  - intros H. apply validateOrderPayload_inr_inv in H. destruct H as (Hp & Hall & Herr).
    symmetry in Herr. unfold all_errors in Herr.
    apply app_eq_nil in Herr. destruct Herr as [Ho Herr].
    apply app_eq_nil in Herr. destruct Herr as [Hc Herr].
    apply app_eq_nil in Herr. destruct Herr as [Hi Herr].
    apply app_eq_nil in Herr. destruct Herr as [Hie Herr].
    apply when_nil, string_rejected_false_iff in Ho. destruct Ho as (oid & Hoid & Hoidne).
    apply when_nil, string_rejected_false_iff in Hc. destruct Hc as (cid & Hcid & Hcidne).
    apply when_nil in Hi.
    unfold validate_order_ts in Herr.
    destruct (string_rejected (get payload "order_ts")) eqn:Hts; [discriminate|].
    apply string_rejected_false_iff in Hts. destruct Hts as (ts & Hts & Htsne).
    rewrite Hts in Herr.
    destruct (Date_valid R ts) eqn:Hdate; [|discriminate].
    unfold items_of, items_rejected in *.
    destruct (get payload "items") as [| |b|n|s|elems|fields]; cbn in Hi;
      rewrite ?orb_true_r in Hi; try discriminate.
    exists oid, cid, elems, ts.
    repeat split; auto.
    + destruct elems; [discriminate | congruence].
    + now apply (items_errors_nil_iff elems 0 Hall).
  - intros (oid & cid & items & ts & Hoid & Hoidne & Hcid & Hcidne & Hitems & Hne
            & Hall & Hts & Htsne & Hdate).
    assert (Hp : nullish payload = false).
    { destruct payload; try reflexivity; discriminate. }
    assert (Hof : items_of payload = items) by (unfold items_of; now rewrite Hitems).
    assert (Hnn : Forall (fun item => nullish item = false) items).
    { eapply Forall_impl; [|exact Hall]. apply passes_item_checks_not_nullish. }
    rewrite validateOrderPayload_total by (rewrite ?Hof; assumption).
    f_equal. unfold all_errors. rewrite Hof, Hoid, Hcid, Hitems, Hts.
    rewrite (proj2 (items_errors_nil_iff items 0 Hnn) Hall).
    rewrite !(proj2 (string_rejected_false_iff _)) by eauto.
    unfold validate_order_ts.
    rewrite (proj2 (string_rejected_false_iff _)) by eauto. rewrite Hdate.
    unfold items_rejected. destruct items; [congruence | reflexivity].
Qed.

(** The valid order of the acceptance tests. *)
Lemma validation_accepts_exactly_witness :
  validateOrderPayload Demo.runtime Demo.validOrder = inr [].
Proof.
  apply (proj2 (validation_accepts_exactly Demo.runtime Demo.validOrder)).
  exists "O1", "C1", [Demo.item "SKU100" 2], "2025-01-31T10:00:00Z".
  repeat (split; [reflexivity || discriminate || idtac|]); try reflexivity.
  constructor; [|constructor]. exists "SKU100", (Fin 2).
  repeat split; discriminate.
Defined.

(** ** What the status of a response says about the request *)

Lemma assembly_outcome_status (R : Runtime) (payload : value) (items : list value)
    (resp : response) (evs : list event) :
  assembly_outcome R payload items resp evs ->
  In (status resp) [200; 502; 503].
Proof.
  intros H. inversion H as [? ? ? ? ? ? ?|metas now wu r Hlen]; subst; cbn; auto.
  destruct r; cbn; auto.
Qed.

(** Every response to a POST on [/orders/assemble] has one of six
    statuses, and a request answered 400, 401 or 500 has done nothing
    outside the process except reading the clock: no catalog lookup, no
    identifier, no message. *)
Theorem rejected_requests_touch_nothing (R : Runtime) (req : request)
    (w w' : World R) (resp : response) (evs : list event) :
  post_orders_assemble R req w = (resp, w', evs) ->
  In (status resp) [200; 400; 401; 500; 502; 503] /\
  (In (status resp) [400; 401; 500] -> Forall is_clock evs).
Proof.
  intros Hrun. apply pipeline_run in Hrun.
  inversion Hrun as [message Hb|payload r e Hb Hk Hst Hc|payload e e' Hb Hk Hv Hc
                    |payload errors e' Hb Hk Hv Hne Hc
                    |payload items r evs0 evs1 Hb Hk Hv Hitems Hacc Hc Hout];
    subst.
  - split; [cbn; auto 10 | intros _; constructor].
  - split; [rewrite Hst; cbn; auto 10 | intros _; assumption].
  - split; [cbn; auto 10 | intros _; assumption].
  - split; [cbn; auto 10 | intros _; assumption].
  - apply assembly_outcome_status in Hout. split.
    + cbn in Hout |- *. intuition auto.
    + intros Hin. exfalso. cbn in Hout, Hin. lia.
Qed.

(** An order without items, sent with the valid key. *)
Lemma rejected_requests_touch_nothing_witness :
  Forall is_clock
    (snd (post_orders_assemble Demo.runtime
            (Demo.post Demo.valid_key (Demo.order [])) Demo.start)).
Proof.
  apply (rejected_requests_touch_nothing Demo.runtime
           (Demo.post Demo.valid_key (Demo.order [])) Demo.start
           (snd (fst (post_orders_assemble Demo.runtime
                        (Demo.post Demo.valid_key (Demo.order [])) Demo.start)))
           (fst (fst (post_orders_assemble Demo.runtime
                        (Demo.post Demo.valid_key (Demo.order [])) Demo.start)))).
  - reflexivity.
  - vm_compute. left. reflexivity.
Defined.

(** A response with status 200 is given only to a request whose key was
    let in and whose document passed validation, after every item was
    looked up once, in the order of the items, and every lookup succeeded,
    then one clock read and one generated identifier, and finally one
    accepted message: the serialized order made of the payload's fields,
    the enriched items, the rendering of that clock read and that
    identifier.  The response echoes the payload's [order_id], that
    identifier and the message identifier the queue returned. *)
Theorem success_means_published (R : Runtime) (req : request)
    (w w' : World R) (resp : response) (evs : list event) :
  post_orders_assemble R req w = (resp, w', evs) ->
  status resp = 200 ->
  exists payload items metas clock_reads now assembly_id MessageId,
    req_body req = Parsed payload /\
    key_accepted R (x_api_key req) w = true /\
    validateOrderPayload R payload = inr [] /\
    get payload "items" = VArr items /\
    List.length metas = List.length items /\
    Forall is_clock clock_reads /\
    evs = (clock_reads
           ++ map (found R) (combine items metas)
           ++ [ EvNow now; EvUuid assembly_id;
                EvSend (publish_params R
                          (assembled_order payload (map enriched (combine items metas))
                             (toISOString R now) assembly_id))
                       (inr MessageId) ])%list /\
    resp = success_response (get payload "order_id") assembly_id MessageId.
Proof.
  intros Hrun H200. apply pipeline_run in Hrun.
  inversion Hrun as [message Hb|payload r e Hb Hk Hst Hc|payload e e' Hb Hk Hv Hc
                    |payload errors e' Hb Hk Hv Hne Hc
                    |payload items r evs0 evs1 Hb Hk Hv Hitems Hacc Hc Hout];
    subst; try (cbn in H200; congruence).
  inversion Hout as [before item after metas cause Hsplit Hlen
                    |metas now wu r' Hlen]; subst; [cbn in H200; discriminate|].
  destruct r' as [cause|MessageId]; [cbn in H200; discriminate|].
  exists payload, items, metas, evs0, now, (fst (uuidv4 R wu)), MessageId.
  repeat split; auto.
Qed.

(** The valid order of the acceptance tests. *)
Lemma success_means_published_witness :
  exists payload items metas clock_reads now assembly_id MessageId,
    req_body (Demo.post Demo.valid_key Demo.validOrder) = Parsed payload /\
    key_accepted Demo.runtime (x_api_key (Demo.post Demo.valid_key Demo.validOrder))
      Demo.start = true /\
    validateOrderPayload Demo.runtime payload = inr [] /\
    get payload "items" = VArr items /\
    List.length metas = List.length items /\
    Forall is_clock clock_reads /\
    snd (post_orders_assemble Demo.runtime
           (Demo.post Demo.valid_key Demo.validOrder) Demo.start)
    = (clock_reads
       ++ map (found Demo.runtime) (combine items metas)
       ++ [ EvNow now; EvUuid assembly_id;
            EvSend (publish_params Demo.runtime
                      (assembled_order payload (map enriched (combine items metas))
                         (toISOString Demo.runtime now) assembly_id))
                   (inr MessageId) ])%list /\
    fst (fst (post_orders_assemble Demo.runtime
                (Demo.post Demo.valid_key Demo.validOrder) Demo.start))
    = success_response (get payload "order_id") assembly_id MessageId.
Proof.
  apply (success_means_published Demo.runtime
           (Demo.post Demo.valid_key Demo.validOrder) Demo.start
           (snd (fst (post_orders_assemble Demo.runtime
                        (Demo.post Demo.valid_key Demo.validOrder) Demo.start)))).
  - reflexivity.
  - reflexivity.
Defined.

(** A response with status 502 means that the lookup of one item was
    rejected after the lookups of all items before it had succeeded: the
    items after it were never looked up, no identifier was generated and
    nothing was sent. *)
Theorem bad_gateway_means_first_failed_lookup (R : Runtime) (req : request)
    (w w' : World R) (resp : response) (evs : list event) :
  post_orders_assemble R req w = (resp, w', evs) ->
  status resp = 502 ->
  exists payload before item after metas clock_reads cause,
    req_body req = Parsed payload /\
    get payload "items" = VArr (before ++ item :: after) /\
    List.length metas = List.length before /\
    Forall is_clock clock_reads /\
    evs = (clock_reads
           ++ map (found R) (combine before metas)
           ++ [EvCatalogGet (catalog_url R (get item "sku")) 5000 (inl cause)])%list /\
    resp = json 502 [ ("error", VStr (enrichment_message R (get item "sku")));
                      ("details", VStr cause) ].
Proof.
  intros Hrun H502. apply pipeline_run in Hrun.
  inversion Hrun as [message Hb|payload r e Hb Hk Hst Hc|payload e e' Hb Hk Hv Hc
                    |payload errors e' Hb Hk Hv Hne Hc
                    |payload items r evs0 evs1 Hb Hk Hv Hitems Hacc Hc Hout];
    subst; try (cbn in H502; congruence).
  inversion Hout as [before item after metas cause Hsplit Hlen
                    |metas now wu r' Hlen]; subst.
  - exists payload, before, item, after, metas, evs0, cause. repeat split; auto.
  - destruct r'; cbn in H502; discriminate.
Qed.

(** A resolvable item, an unknown one, and one more that is never reached. *)
Lemma bad_gateway_means_first_failed_lookup_witness :
  exists payload before item after metas clock_reads cause,
    req_body (Demo.post Demo.valid_key
                (Demo.order [Demo.item "SKU100" 1; Demo.item "INVALID_SKU" 1;
                             Demo.item "SKU200" 1]))
    = Parsed payload /\
    get payload "items" = VArr (before ++ item :: after) /\
    List.length metas = List.length before /\
    Forall is_clock clock_reads /\
    snd (post_orders_assemble Demo.runtime
           (Demo.post Demo.valid_key
              (Demo.order [Demo.item "SKU100" 1; Demo.item "INVALID_SKU" 1;
                           Demo.item "SKU200" 1])) Demo.start)
    = (clock_reads
       ++ map (found Demo.runtime) (combine before metas)
       ++ [EvCatalogGet (catalog_url Demo.runtime (get item "sku")) 5000 (inl cause)])%list /\
    fst (fst (post_orders_assemble Demo.runtime
                (Demo.post Demo.valid_key
                   (Demo.order [Demo.item "SKU100" 1; Demo.item "INVALID_SKU" 1;
                                Demo.item "SKU200" 1])) Demo.start))
    = json 502 [ ("error", VStr (enrichment_message Demo.runtime (get item "sku")));
                 ("details", VStr cause) ].
Proof.
  apply (bad_gateway_means_first_failed_lookup Demo.runtime
           (Demo.post Demo.valid_key
              (Demo.order [Demo.item "SKU100" 1; Demo.item "INVALID_SKU" 1;
                           Demo.item "SKU200" 1])) Demo.start
           (snd (fst (post_orders_assemble Demo.runtime
                        (Demo.post Demo.valid_key
                           (Demo.order [Demo.item "SKU100" 1; Demo.item "INVALID_SKU" 1;
                                        Demo.item "SKU200" 1])) Demo.start)))).
  - reflexivity.
  - reflexivity.
Defined.

(** A response with status 503 means that every item was looked up
    successfully, an identifier was generated, and the one message handed
    to the queue was rejected by the transport; the request ends there. *)
Theorem service_unavailable_means_failed_send (R : Runtime) (req : request)
    (w w' : World R) (resp : response) (evs : list event) :
  post_orders_assemble R req w = (resp, w', evs) ->
  status resp = 503 ->
  exists payload items metas clock_reads now assembly_id cause,
    req_body req = Parsed payload /\
    get payload "items" = VArr items /\
    List.length metas = List.length items /\
    Forall is_clock clock_reads /\
    evs = (clock_reads
           ++ map (found R) (combine items metas)
           ++ [ EvNow now; EvUuid assembly_id;
                EvSend (publish_params R
                          (assembled_order payload (map enriched (combine items metas))
                             (toISOString R now) assembly_id))
                       (inl cause) ])%list /\
    resp = json 503 [ ("error", VStr "Failed to publish order to queue");
                      ("details", VStr cause) ].
Proof.
  intros Hrun H503. apply pipeline_run in Hrun.
  inversion Hrun as [message Hb|payload r e Hb Hk Hst Hc|payload e e' Hb Hk Hv Hc
                    |payload errors e' Hb Hk Hv Hne Hc
                    |payload items r evs0 evs1 Hb Hk Hv Hitems Hacc Hc Hout];
    subst; try (cbn in H503; congruence).
  inversion Hout as [before item after metas cause Hsplit Hlen
                    |metas now wu r' Hlen]; subst; [cbn in H503; discriminate|].
  destruct r' as [cause|MessageId]; [|cbn in H503; discriminate].
  exists payload, items, metas, evs0, now, (fst (uuidv4 R wu)), cause.
  repeat split; auto.
Qed.

(** The valid order of the acceptance tests while the queue is unreachable. *)
Lemma service_unavailable_means_failed_send_witness :
  exists payload items metas clock_reads now assembly_id cause,
    req_body (Demo.post Demo.valid_key Demo.validOrder) = Parsed payload /\
    get payload "items" = VArr items /\
    List.length metas = List.length items /\
    Forall is_clock clock_reads /\
    snd (post_orders_assemble Demo.runtime
           (Demo.post Demo.valid_key Demo.validOrder) Demo.queue_down)
    = (clock_reads
       ++ map (found Demo.runtime) (combine items metas)
       ++ [ EvNow now; EvUuid assembly_id;
            EvSend (publish_params Demo.runtime
                      (assembled_order payload (map enriched (combine items metas))
                         (toISOString Demo.runtime now) assembly_id))
                   (inl cause) ])%list /\
    fst (fst (post_orders_assemble Demo.runtime
                (Demo.post Demo.valid_key Demo.validOrder) Demo.queue_down))
    = json 503 [ ("error", VStr "Failed to publish order to queue");
                 ("details", VStr cause) ].
Proof.
  apply (service_unavailable_means_failed_send Demo.runtime
           (Demo.post Demo.valid_key Demo.validOrder) Demo.queue_down
           (snd (fst (post_orders_assemble Demo.runtime
                        (Demo.post Demo.valid_key Demo.validOrder) Demo.queue_down)))).
  - reflexivity.
  - reflexivity.
Defined.

(** ** When the service answers 500 *)

Lemma validate_items_nullish (R : Runtime) (items : list value) :
  forall index errors,
    (exists item, In item items /\ nullish item = true) ->
    exists e, validate_items R items index errors = inl e.
Proof.
  induction items as [|x rest IH]; intros index errors (item & Hin & Hn).
  - contradiction.
  - cbn [validate_items]. destruct (nullish x) eqn:Hx; [eauto|].
    destruct Hin as [->|Hin]; [congruence|]. apply IH. eauto.
Qed.

Lemma validation_throws_iff (R : Runtime) (payload : value) :
  (exists e, validateOrderPayload R payload = inl e) <->
  nullish payload = true \/
  (exists item, In item (items_of payload) /\ nullish item = true).
Proof.
  split.
  - intros (e & H). eapply validateOrderPayload_inl_inv. exact H.
  - intros H. destruct (nullish payload) eqn:Hp.
    + unfold validateOrderPayload. rewrite Hp. eauto.
    + destruct H as [H|H]; [discriminate|].
      unfold validateOrderPayload, items_of in *. rewrite Hp. cbv zeta.
      destruct (get payload "items") as [| |b|n|s|elems|fields];
        try (destruct H as (item & [] & _)).
      match goal with
      | |- context [validate_items R elems ?i ?errs] =>
          destruct (validate_items_nullish R elems i errs H) as (e & ->)
      end.
      eauto.
Qed.

(** The service answers 500 in exactly two situations: the body parser
    could not parse the body; or the key was let in and the document is
    [null]/[undefined] or has a [null]/[undefined] element in its [items]
    array, on which validation throws.  In both, nothing else happens. *)
Theorem internal_error_exactly_when (R : Runtime) (req : request)
    (w w' : World R) (resp : response) (evs : list event) :
  post_orders_assemble R req w = (resp, w', evs) ->
  (status resp = 500 <->
   (exists message, req_body req = ParseError message) \/
   (exists payload,
      req_body req = Parsed payload /\
      key_accepted R (x_api_key req) w = true /\
      (nullish payload = true \/
       exists item, In item (items_of payload) /\ nullish item = true))).
Proof.
  intros Hrun. apply pipeline_run in Hrun.
  inversion Hrun as [message Hb|payload r e Hb Hk Hst Hc|payload e e' Hb Hk Hv Hc
                    |payload errors e' Hb Hk Hv Hne Hc
                    |payload items r evs0 evs1 Hb Hk Hv Hitems Hacc Hc Hout];
    subst.
  - split; [eauto | reflexivity].
  - rewrite Hst. split; [discriminate|].
    intros [(m & Hm)|(p & Hp & Hacc & _)]; congruence.
  - split; [|reflexivity]. intros _. right. exists payload.
    split; [assumption|]. split; [assumption|].
    apply (proj1 (validation_throws_iff R payload)). eauto.
  - split; [cbn; discriminate|].
    intros [(m & Hm)|(p & Hp & _ & Hnull)]; [congruence|].
    rewrite Hb in Hp. inversion Hp; subst p.
    apply (proj2 (validation_throws_iff R payload)) in Hnull.
    destruct Hnull as (e & He). congruence.
  - split.
    + intros H500. apply assembly_outcome_status in Hout. cbn in Hout. lia.
    + intros [(m & Hm)|(p & Hp & _ & Hnull)]; [congruence|].
      rewrite Hb in Hp. inversion Hp; subst p.
      apply (proj2 (validation_throws_iff R payload)) in Hnull.
      destruct Hnull as (e & He). congruence.
Qed.

(** A document that is [null], sent with the valid key. *)
Lemma internal_error_exactly_when_witness :
  status (fst (fst (post_orders_assemble Demo.runtime
                      (Demo.post Demo.valid_key VNull) Demo.start))) = 500.
Proof.
  apply (proj2 (internal_error_exactly_when Demo.runtime
                  (Demo.post Demo.valid_key VNull) Demo.start
                  (snd (fst (post_orders_assemble Demo.runtime
                               (Demo.post Demo.valid_key VNull) Demo.start)))
                  (fst (fst (post_orders_assemble Demo.runtime
                               (Demo.post Demo.valid_key VNull) Demo.start)))
                  (snd (post_orders_assemble Demo.runtime
                          (Demo.post Demo.valid_key VNull) Demo.start))
                  eq_refl)).
  right. exists VNull. split; [reflexivity|]. split; [reflexivity|]. left. reflexivity.
Defined.

(** ** The liveness probe *)

(** [GET /health] needs no API key: every request whose body was parsed
    (or had none) is answered 200 with the fixed status, service name and
    version and the rendering of one clock read, whatever its key, and the
    probe touches neither the catalog nor the queue.  A request whose body
    the parser rejects is answered 500 on this route too. *)
Theorem health_needs_no_key (R : Runtime) (req : request) (w : World R) :
  match req_body req with
  | Parsed _ =>
      get_health R req w
      = (json 200 [ ("status", VStr "healthy");
                    ("service", VStr "order-assembly-service");
                    ("timestamp", VStr (toISOString R (fst (Date_now R w))));
                    ("version", VStr "1.0.0") ],
         snd (Date_now R w), [EvNow (fst (Date_now R w))])
  | ParseError message =>
      get_health R req w
      = (json 500 [ ("error", VStr "Internal server error");
                    ("details", VStr message) ], w, [])
  end.
Proof.
  unfold get_health. destruct (req_body req) as [payload|message]; [|reflexivity].
  unfold bind, new_Date, ret. destruct (Date_now R w) as [now w1]. reflexivity.
Qed.

(** * Properties of the test helpers *)

(** ** api.helper.js *)

Lemma lookup_set_field (k k' : string) (v : value) (fields : list (string * value)) :
  lookup k (set_field k' v fields) = if String.eqb k' k then Some v else lookup k fields.
Proof.
  induction fields as [|[k0 v0] rest IH]; cbn [set_field lookup].
  - destruct (String.eqb k' k); reflexivity.
  - destruct (String.eqb_spec k0 k') as [->|Hne]; cbn [lookup].
    + destruct (String.eqb k' k); reflexivity.
    + rewrite IH. destruct (String.eqb_spec k0 k) as [->|Hne2]; [|reflexivity].
      apply String.eqb_neq in Hne. rewrite String.eqb_sym in Hne. now rewrite Hne.
Qed.

Lemma lookup_not_in (k : string) (fields : list (string * value)) :
  ~ In k (map fst fields) -> lookup k fields = None.
Proof.
  induction fields as [|[k0 v0] rest IH]; intros Hnin; [reflexivity|].
  cbn [lookup]. destruct (String.eqb_spec k0 k) as [->|Hne].
  - exfalso. apply Hnin. now left.
  - apply IH. intros Hin. apply Hnin. now right.
Qed.

(** Reading a property of [{ ...base, ...source }]: the source's binding
    if it has one, else the base's. *)
Lemma lookup_spread (k : string) (source : list (string * value)) :
  forall base,
    NoDup (map fst source) ->
    lookup k (spread base (VObj source))
    = match lookup k source with Some v => Some v | None => lookup k base end.
Proof.
  unfold spread. cbn [own_properties].
  induction source as [|[k0 v0] rest IH]; intros base Hnd; [reflexivity|].
  cbn [fold_left fst snd lookup]. inversion Hnd as [|? ? Hnin Hrest]; subst.
  rewrite IH by assumption. rewrite lookup_set_field.
  destruct (String.eqb_spec k0 k) as [->|Hne]; [|reflexivity].
  now rewrite (lookup_not_in k rest Hnin).
Qed.

Section ApiHelperFacts.

Variable C : Cypress.

Lemma issue_options (key : value) (entries fixed_headers : list (string * value))
    (fields : list (string * value)) (b : Browser C) (k : string) :
  NoDup (map fst fields) ->
  exists options,
    snd (apiHelper.issue C key entries fixed_headers (VObj fields) b) = [options] /\
    get options k
    = match lookup k fields with
      | Some v => v
      | None =>
          get (VObj (entries
                     ++ [ ("headers",
                           VObj (spread (fixed_headers ++ [("x-api-key", key)])
                                   (apiHelper.headers_of (VObj fields)))) ])%list) k
      end.
Proof.
  intros Hnd. unfold apiHelper.issue. cbn [default nullish].
  unfold send_request. destruct (cy_request C _ b) as [r b'] eqn:Hreq. cbn [snd].
  eexists. split; [reflexivity|].
  cbn [get]. rewrite lookup_spread by assumption.
  destruct (lookup k fields); reflexivity.
Qed.

End ApiHelperFacts.

(** Whatever the helper is asked to send, the caller's options have the
    last word: if the options carry a [headers] property, the request is
    sent with exactly those headers, so the default [x-api-key] (and the
    JSON content type) the helper merges are dropped unless the caller
    repeats them; without one, the headers are the helper's own, with the
    current default key. *)
Theorem apiHelper_caller_headers_replace_defaults (C : Cypress) (key : value)
    (endpoint payload : value) (fields : list (string * value)) (b : Browser C) :
  NoDup (map fst fields) ->
  (exists options,
     snd (apiHelper.post C key endpoint payload (VObj fields) b) = [options] /\
     get options "headers"
     = match lookup "headers" fields with
       | Some headers => headers
       | None => VObj [ ("Content-Type", VStr "application/json"); ("x-api-key", key) ]
       end) /\
  (exists options,
     snd (apiHelper.get C key endpoint (VObj fields) b) = [options] /\
     get options "headers"
     = match lookup "headers" fields with
       | Some headers => headers
       | None => VObj [ ("x-api-key", key) ]
       end).
Proof.
  intros Hnd. split.
  - destruct (issue_options C key
                [ ("method", VStr "POST"); ("url", endpoint); ("body", payload) ]
                [ ("Content-Type", VStr "application/json") ] fields b "headers" Hnd)
      as (options & Hlog & Hget).
    exists options. split; [exact Hlog|]. rewrite Hget.
    destruct (lookup "headers" fields) eqn:Hh; [reflexivity|].
    unfold apiHelper.headers_of. cbn [get]. rewrite Hh. reflexivity.
  - destruct (issue_options C key
                [ ("method", VStr "GET"); ("url", endpoint) ] [] fields b "headers" Hnd)
      as (options & Hlog & Hget).
    exists options. split; [exact Hlog|]. rewrite Hget.
    destruct (lookup "headers" fields) eqn:Hh; [reflexivity|].
    unfold apiHelper.headers_of. cbn [get]. rewrite Hh. reflexivity.
Qed.

(** A POST with a custom header only: the default key is not sent. *)
Lemma apiHelper_caller_headers_replace_defaults_witness :
  exists options,
    snd (apiHelper.post DemoCypress.cypress apiHelper.initial_key
           (VStr "/orders/assemble") Demo.validOrder
           (VObj [ ("failOnStatusCode", VBool false);
                   ("headers", VObj [ ("X-Request-Id", VStr "42") ]) ])
           [DemoCypress.response 401 VNull]) = [options] /\
    get options "headers"
    = match lookup "headers"
              [ ("failOnStatusCode", VBool false);
                ("headers", VObj [ ("X-Request-Id", VStr "42") ]) ] with
      | Some headers => headers
      | None => VObj [ ("Content-Type", VStr "application/json");
                       ("x-api-key", apiHelper.initial_key) ]
      end.
Proof.
  apply (apiHelper_caller_headers_replace_defaults DemoCypress.cypress
           apiHelper.initial_key (VStr "/orders/assemble") Demo.validOrder
           [ ("failOnStatusCode", VBool false);
             ("headers", VObj [ ("X-Request-Id", VStr "42") ]) ]
           [DemoCypress.response 401 VNull]).
  repeat constructor; cbn; intuition discriminate.
Defined.

(** ** sqs.helper.js *)

Section SqsHelperFacts.

Variable C : Cypress.

Lemma default_queue_name (queueName : value) :
  default (default queueName (VStr sqsHelper.QUEUE_NAME)) (VStr sqsHelper.QUEUE_NAME)
  = default queueName (VStr sqsHelper.QUEUE_NAME).
Proof. destruct queueName; reflexivity. Qed.

Lemma then_failed {A B} (m : Chain C A) (k : A -> Chain C B) b f b1 t1 :
  m b = (inl f, b1, t1) -> then_ m k b = (inl f, b1, t1).
Proof. intros H. unfold then_. rewrite H. reflexivity. Qed.

Lemma then_yielded {A B} (m : Chain C A) (k : A -> Chain C B) b a b1 t1 :
  m b = (inr a, b1, t1) ->
  then_ m k b = (let '(r2, b2, t2) := k a b1 in (r2, b2, (t1 ++ t2)%list)).
Proof. intros H. unfold then_. rewrite H. reflexivity. Qed.

Lemma getQueueUrl_refused (queueName : value) (b b1 : Browser C) (response : value) :
  cy_request C (sqsHelper.queue_url_request
                  (default queueName (VStr sqsHelper.QUEUE_NAME))) b
  = (inr response, b1) ->
  nullish response = false ->
  sqsHelper.status_is_200 response = false ->
  sqsHelper.getQueueUrl C queueName b
  = (inl (ErrorThrown ("Failed to get queue URL: " ++ template C (get response "status"))),
     b1,
     [sqsHelper.queue_url_request (default queueName (VStr sqsHelper.QUEUE_NAME))]).
Proof.
  intros Hreq Hn Hst. unfold sqsHelper.getQueueUrl, then_, send_request.
  rewrite Hreq, Hn, Hst. reflexivity.
Qed.

Lemma getQueueUrl_answered (queueName : value) (b b1 : Browser C) (response : value) :
  cy_request C (sqsHelper.queue_url_request
                  (default queueName (VStr sqsHelper.QUEUE_NAME))) b
  = (inr response, b1) ->
  sqsHelper.status_is_200 response = true ->
  nullish (get response "body") = false ->
  sqsHelper.getQueueUrl C queueName b
  = (inr (get (get response "body") "QueueUrl"), b1,
     [sqsHelper.queue_url_request (default queueName (VStr sqsHelper.QUEUE_NAME))]).
Proof.
  intros Hreq Hst Hbody. unfold sqsHelper.getQueueUrl, then_, send_request.
  assert (Hn : nullish response = false).
  { destruct response; try reflexivity; discriminate. }
  rewrite Hreq, Hn, Hst. unfold read. rewrite Hbody. reflexivity.
Qed.

End SqsHelperFacts.

(** Every queue helper first asks for the queue URL, and stops there when
    that request is not answered with status 200: it throws "Failed to get
    queue URL: <status>" and the action itself (receive, delete, purge,
    attributes) is never sent. *)
Theorem sqsHelper_stops_without_queue_url (C : Cypress) (queueName : value)
    (b b1 : Browser C) (response : value) (maxMessages receiptHandle : value) :
  cy_request C (sqsHelper.queue_url_request
                  (default queueName (VStr sqsHelper.QUEUE_NAME))) b
  = (inr response, b1) ->
  nullish response = false ->
  sqsHelper.status_is_200 response = false ->
  let thrown := ErrorThrown ("Failed to get queue URL: "
                             ++ template C (get response "status")) in
  let sent := [sqsHelper.queue_url_request
                 (default queueName (VStr sqsHelper.QUEUE_NAME))] in
  sqsHelper.receiveMessage C queueName maxMessages b = (inl thrown, b1, sent) /\
  sqsHelper.receiveAndParseMessage C queueName b = (inl thrown, b1, sent) /\
  sqsHelper.deleteMessage C queueName receiptHandle b = (inl thrown, b1, sent) /\
  sqsHelper.purgeQueue C queueName b = (inl thrown, b1, sent) /\
  sqsHelper.getQueueAttributes C queueName b = (inl thrown, b1, sent).
Proof.
  intros Hreq Hn Hst thrown sent.
  pose proof (getQueueUrl_refused C queueName b b1 response Hreq Hn Hst) as Hurl.
  assert (Hurl' : sqsHelper.getQueueUrl C
                    (default queueName (VStr sqsHelper.QUEUE_NAME)) b
                  = (inl thrown, b1, sent)).
  { unfold sqsHelper.getQueueUrl in *. rewrite default_queue_name. exact Hurl. }
  assert (Hrecv : forall m, sqsHelper.receiveMessage C queueName m b = (inl thrown, b1, sent)).
  { intros m. unfold sqsHelper.receiveMessage. now apply then_failed. }
  repeat split.
  - apply Hrecv.
  - unfold sqsHelper.receiveAndParseMessage. apply then_failed.
    unfold sqsHelper.receiveMessage. rewrite default_queue_name. now apply then_failed.
  - unfold sqsHelper.deleteMessage. now apply then_failed.
  - unfold sqsHelper.purgeQueue. now apply then_failed.
  - unfold sqsHelper.getQueueAttributes. now apply then_failed.
Qed.

(** The queue does not exist: the URL request is answered 400. *)
Lemma sqsHelper_stops_without_queue_url_witness :
  sqsHelper.purgeQueue DemoCypress.cypress VUndefined
    [DemoCypress.response 400 (VStr "<ErrorResponse/>"); DemoCypress.response 200 VNull]
  = (inl (ErrorThrown "Failed to get queue URL: 400"),
     [DemoCypress.response 200 VNull],
     [sqsHelper.queue_url_request (VStr "assembled-orders")]).
Proof.
  apply (sqsHelper_stops_without_queue_url DemoCypress.cypress VUndefined
           [DemoCypress.response 400 (VStr "<ErrorResponse/>");
            DemoCypress.response 200 VNull]
           [DemoCypress.response 200 VNull]
           (VObj [ ("status", VNum (Fin (inject_Z 400)));
                   ("body", VStr "<ErrorResponse/>") ])
           VUndefined VUndefined).
  - reflexivity.
  - reflexivity.
  - reflexivity.
Defined.

(** Once the queue URL is known, [receiveMessage] sends one more request,
    the ReceiveMessage action for that URL and the asked number of
    messages (one by default).  Unless the answer has status 200 the
    helper reads the queue as empty, whatever the body says: it returns no
    message, and [receiveAndParseMessage] throws "No messages in queue". *)
Theorem sqsHelper_reads_failure_as_empty_queue (C : Cypress)
    (queueName maxMessages : value) (b b1 b2 : Browser C) (found received : value) :
  cy_request C (sqsHelper.queue_url_request
                  (default queueName (VStr sqsHelper.QUEUE_NAME))) b
  = (inr found, b1) ->
  sqsHelper.status_is_200 found = true ->
  nullish (get found "body") = false ->
  let receive m :=
    sqsHelper.action_request
      [ ("Action", VStr "ReceiveMessage");
        ("QueueUrl", get (get found "body") "QueueUrl");
        ("MaxNumberOfMessages", m);
        ("Version", VStr "2012-11-05") ] in
  let ask := sqsHelper.queue_url_request
               (default queueName (VStr sqsHelper.QUEUE_NAME)) in
  (cy_request C (receive (default maxMessages (VNum (Fin 1)))) b1 = (inr received, b2) ->
   nullish received = false ->
   sqsHelper.status_is_200 received = false ->
   sqsHelper.receiveMessage C queueName maxMessages b
   = (inr [], b2, [ask; receive (default maxMessages (VNum (Fin 1)))])) /\
  (cy_request C (receive (VNum (Fin 1))) b1 = (inr received, b2) ->
   nullish received = false ->
   sqsHelper.status_is_200 received = false ->
   sqsHelper.receiveAndParseMessage C queueName b
   = (inl (ErrorThrown "No messages in queue"), b2, [ask; receive (VNum (Fin 1))])).
Proof.
  intros Hreq Hst Hbody receive ask.
  pose proof (getQueueUrl_answered C queueName b b1 found Hreq Hst Hbody) as Hurl.
  assert (Hurl' : sqsHelper.getQueueUrl C
                    (default queueName (VStr sqsHelper.QUEUE_NAME)) b
                  = (inr (get (get found "body") "QueueUrl"), b1, [ask])).
  { unfold sqsHelper.getQueueUrl in *. rewrite default_queue_name. exact Hurl. }
  assert (Hrecv : forall m,
            cy_request C (receive (default m (VNum (Fin 1)))) b1 = (inr received, b2) ->
            nullish received = false ->
            sqsHelper.status_is_200 received = false ->
            sqsHelper.receiveMessage C queueName m b
            = (inr [], b2, [ask; receive (default m (VNum (Fin 1)))])).
  { intros m Hr Hn H200. unfold sqsHelper.receiveMessage.
    rewrite (then_yielded C _ _ _ _ _ _ Hurl').
    unfold then_, send_request. fold (receive (default m (VNum (Fin 1)))).
    rewrite Hr. unfold sqsHelper.received_messages, read. rewrite Hn.
    unfold sqsHelper.status_is_200 in H200. rewrite H200. reflexivity. }
  split.
  - apply Hrecv.
  - intros Hr Hn H200. unfold sqsHelper.receiveAndParseMessage.
    assert (Hm : sqsHelper.receiveMessage C
                   (default queueName (VStr sqsHelper.QUEUE_NAME)) (VNum (Fin 1)) b
                 = (inr [], b2, [ask; receive (VNum (Fin 1))])).
    { specialize (Hrecv (VNum (Fin 1)) Hr Hn H200).
      unfold sqsHelper.receiveMessage in *. rewrite default_queue_name. exact Hrecv. }
    rewrite (then_yielded C _ _ _ _ _ _ Hm). reflexivity.
Qed.

(** The queue URL is found, the receive action is answered 500. *)
Lemma sqsHelper_reads_failure_as_empty_queue_witness :
  sqsHelper.receiveAndParseMessage DemoCypress.cypress VUndefined
    [ DemoCypress.response 200 (VObj [ ("QueueUrl", VStr "http://sqs/assembled-orders") ]);
      DemoCypress.response 500 (VStr "Internal Failure") ]
  = (inl (ErrorThrown "No messages in queue"), [],
     [ sqsHelper.queue_url_request (VStr "assembled-orders");
       sqsHelper.action_request
         [ ("Action", VStr "ReceiveMessage");
           ("QueueUrl", VStr "http://sqs/assembled-orders");
           ("MaxNumberOfMessages", VNum (Fin 1));
           ("Version", VStr "2012-11-05") ] ]).
Proof.
  apply (proj2 (sqsHelper_reads_failure_as_empty_queue DemoCypress.cypress
                  VUndefined VUndefined
                  [ DemoCypress.response 200
                      (VObj [ ("QueueUrl", VStr "http://sqs/assembled-orders") ]);
                    DemoCypress.response 500 (VStr "Internal Failure") ]
                  [ DemoCypress.response 500 (VStr "Internal Failure") ]
                  []
                  (VObj [ ("status", VNum (Fin (inject_Z 200)));
                          ("body", VObj [ ("QueueUrl", VStr "http://sqs/assembled-orders") ]) ])
                  (VObj [ ("status", VNum (Fin (inject_Z 500)));
                          ("body", VStr "Internal Failure") ])
                  eq_refl eq_refl eq_refl)); reflexivity.
Defined.

(** ** The message validators and the service's message *)

(** [validateEnrichedData] looks for a property [enriched_items], but the
    order the service serializes keeps its enriched items under [items]:
    the validator rejects every message whose body is an order assembled
    by the service, whatever SKUs are expected. *)
Theorem validateEnrichedData_rejects_assembled_orders (C : Cypress)
    (message expectedSkus : value) (payload : value) (enrichedItems : list value)
    (assembled_ts assembly_id : string) :
  nullish message = false ->
  JSON_parse C (get message "Body")
  = Some (assembled_order payload enrichedItems assembled_ts assembly_id) ->
  sqsHelper.validateEnrichedData C message expectedSkus = inl AssertionFailed.
Proof.
  intros Hn Hparse. unfold sqsHelper.validateEnrichedData, sqsHelper.parse_body, read.
  rewrite Hn, Hparse. reflexivity.
Qed.

(** The message the service published for the valid order. *)
Lemma validateEnrichedData_rejects_assembled_orders_witness :
  sqsHelper.validateEnrichedData DemoCypress.cypress DemoCypress.published_message
    (VArr [VStr "SKU100"]) = inl AssertionFailed.
Proof.
  apply (validateEnrichedData_rejects_assembled_orders DemoCypress.cypress
           DemoCypress.published_message (VArr [VStr "SKU100"]) Demo.validOrder
           [enriched_item (Demo.item "SKU100" 2)
              (VObj [ ("name", VStr "Birthday Card"); ("price_cents", VNum (Fin 499)) ])]
           "2025-01-31T10:00:01.000Z" "00000000-0000-4000-8000-000000000000").
  - reflexivity.
  - vm_compute. reflexivity.
Defined.

(** [validateOrderMessage] accepts the message of an order the service
    assembled when it is given the document that was posted: the five
    fields it asks for are all there, and the order and customer
    identifiers of a document that passed validation are strings equal to
    themselves. *)
Theorem validateOrderMessage_accepts_assembled_orders (C : Cypress) (R : Runtime)
    (message : value) (payload : value) (enrichedItems : list value)
    (assembled_ts assembly_id : string) :
  nullish message = false ->
  JSON_parse C (get message "Body")
  = Some (assembled_order payload enrichedItems assembled_ts assembly_id) ->
  validateOrderPayload R payload = inr [] ->
  sqsHelper.validateOrderMessage C message payload = inr true.
Proof.
  intros Hn Hparse Hvalid.
  pose proof (validation_passes_inv R payload Hvalid)
    as (Hp & (oid & Hoid & Hoidne) & (cid & Hcid & Hcidne)
        & (items & Hitems & Hne & _) & _).
  unfold sqsHelper.validateOrderMessage, sqsHelper.parse_body, read.
  rewrite Hn, Hparse.
  assert (Hd : default payload (VObj []) = payload).
  { destruct payload; try reflexivity; discriminate. }
  rewrite Hd, Hp.
  cbn [has_property assembled_order lookup String.eqb Ascii.eqb Bool.eqb sqsHelper.expect].
  assert (Hk : (0 <? sqsHelper.keys_length payload)%nat = true).
  { destruct payload as [| |b|n|s|l|fields]; try discriminate.
    destruct fields; [discriminate | reflexivity]. }
  rewrite Hk, Hoid, Hcid, Hitems.
  cbn [truthy get lookup String.eqb Ascii.eqb Bool.eqb].
  apply String.eqb_neq in Hoidne, Hcidne. rewrite Hoidne, Hcidne. cbn [negb].
  change (get (assembled_order payload enrichedItems assembled_ts assembly_id) "order_id")
    with (get payload "order_id").
  change (get (assembled_order payload enrichedItems assembled_ts assembly_id) "customer_id")
    with (get payload "customer_id").
  change (get (assembled_order payload enrichedItems assembled_ts assembly_id) "items")
    with (VArr enrichedItems).
  rewrite Hoid, Hcid. cbn [strict_equal isArray sqsHelper.expect].
  rewrite !String.eqb_refl. reflexivity.
Qed.

(** The message the service published for the valid order, checked
    against that order. *)
Lemma validateOrderMessage_accepts_assembled_orders_witness :
  sqsHelper.validateOrderMessage DemoCypress.cypress DemoCypress.published_message
    Demo.validOrder = inr true.
Proof.
  apply (validateOrderMessage_accepts_assembled_orders DemoCypress.cypress Demo.runtime
           DemoCypress.published_message Demo.validOrder
           [enriched_item (Demo.item "SKU100" 2)
              (VObj [ ("name", VStr "Birthday Card"); ("price_cents", VNum (Fin 499)) ])]
           "2025-01-31T10:00:01.000Z" "00000000-0000-4000-8000-000000000000").
  - reflexivity.
  - vm_compute. reflexivity.
  - vm_compute. reflexivity.
Defined.

(** * What one request can cost *)

(** Whatever the request and whatever the collaborators answer, handling
    one POST on [/orders/assemble] generates at most one identifier, hands
    at most one message to the queue, and makes at most as many catalog
    lookups as the document has items. *)
Theorem one_request_bounded_effects (R : Runtime) (req : request)
    (w w' : World R) (resp : response) (evs : list event) :
  post_orders_assemble R req w = (resp, w', evs) ->
  (List.length (filter is_uuid evs) <= 1)%nat /\
  (List.length (filter is_send evs) <= 1)%nat /\
  (forall payload,
     req_body req = Parsed payload ->
     (List.length (filter is_lookup evs) <= List.length (items_of payload))%nat).
Proof.
  intros Hrun. apply pipeline_run in Hrun.
  inversion Hrun as [message Hb|payload r e Hb Hk Hst Hc|payload e e' Hb Hk Hv Hc
                    |payload errors e' Hb Hk Hv Hne Hc
                    |payload items r evs0 evs1 Hb Hk Hv Hitems Hacc Hc Hout];
    subst;
    try (rewrite ?clock_no_uuid, ?clock_no_send, ?clock_no_lookup by assumption;
         repeat split; cbn; intros; lia).
  assert (Hof : forall p, req_body req = Parsed p -> items_of p = items).
  { intros p Hp. rewrite Hb in Hp. inversion Hp; subst p.
    unfold items_of. now rewrite Hitems. }
  inversion Hout as [before item after metas cause Hsplit Hlen
                    |metas now wu r' Hlen]; subst.
  - rewrite !filter_app, clock_no_uuid, clock_no_send, clock_no_lookup,
      found_no_uuid, found_no_send by assumption.
    repeat split; cbn; try lia.
    intros p Hp. rewrite (Hof p Hp), length_app, found_all_lookups, length_combine.
    rewrite length_app. cbn. lia.
  - rewrite !filter_app, clock_no_uuid, clock_no_send, clock_no_lookup,
      found_no_uuid, found_no_send by assumption.
    repeat split; cbn; try lia.
    intros p Hp. rewrite (Hof p Hp), length_app, found_all_lookups, length_combine.
    cbn. lia.
Qed.

(** Three items, the second of which is unknown to the catalog. *)
Lemma one_request_bounded_effects_witness :
  (List.length
     (filter is_lookup
        (snd (post_orders_assemble Demo.runtime
                (Demo.post Demo.valid_key
                   (Demo.order [Demo.item "SKU100" 1; Demo.item "INVALID_SKU" 1;
                                Demo.item "SKU200" 1])) Demo.start)))
   <= List.length
        (items_of (Demo.order [Demo.item "SKU100" 1; Demo.item "INVALID_SKU" 1;
                               Demo.item "SKU200" 1])))%nat.
Proof.
  apply (one_request_bounded_effects Demo.runtime
           (Demo.post Demo.valid_key
              (Demo.order [Demo.item "SKU100" 1; Demo.item "INVALID_SKU" 1;
                           Demo.item "SKU200" 1])) Demo.start
           (snd (fst (post_orders_assemble Demo.runtime
                        (Demo.post Demo.valid_key
                           (Demo.order [Demo.item "SKU100" 1; Demo.item "INVALID_SKU" 1;
                                        Demo.item "SKU200" 1])) Demo.start)))
           (fst (fst (post_orders_assemble Demo.runtime
                        (Demo.post Demo.valid_key
                           (Demo.order [Demo.item "SKU100" 1; Demo.item "INVALID_SKU" 1;
                                        Demo.item "SKU200" 1])) Demo.start)))).
  - reflexivity.
  - reflexivity.
Defined.

(** * An order with several violations *)

(** Three rules violated at once by a document without [null] items. *)
Lemma violations_answer_400_witness :
  assemble_handler Demo.runtime
    (VObj [ ("order_id", VStr "O1"); ("customer_id", VStr "");
            ("items", VArr [ VObj [ ("sku", VStr "SKU100"); ("quantity", VNum (Fin 0)) ] ]);
            ("order_ts", VStr "yesterday") ]) Demo.start
  = (json 400
       [ ("error", VStr "Validation failed");
         ("details",
          VArr (map VStr
                  (map (rule_error
                          (VObj [ ("order_id", VStr "O1"); ("customer_id", VStr "");
                                  ("items", VArr [ VObj [ ("sku", VStr "SKU100");
                                                          ("quantity", VNum (Fin 0)) ] ]);
                                  ("order_ts", VStr "yesterday") ]))
                     (filter (violated Demo.runtime
                                (VObj [ ("order_id", VStr "O1"); ("customer_id", VStr "");
                                        ("items", VArr [ VObj [ ("sku", VStr "SKU100");
                                                                ("quantity", VNum (Fin 0)) ] ]);
                                        ("order_ts", VStr "yesterday") ]))
                        (spec_rules
                           (VObj [ ("order_id", VStr "O1"); ("customer_id", VStr "");
                                   ("items", VArr [ VObj [ ("sku", VStr "SKU100");
                                                           ("quantity", VNum (Fin 0)) ] ]);
                                   ("order_ts", VStr "yesterday") ])))))) ],
     Demo.start, []).
Proof.
  apply (violations_answer_400 Demo.runtime
           (VObj [ ("order_id", VStr "O1"); ("customer_id", VStr "");
                   ("items", VArr [ VObj [ ("sku", VStr "SKU100");
                                           ("quantity", VNum (Fin 0)) ] ]);
                   ("order_ts", VStr "yesterday") ]) Demo.start).
  - reflexivity.
  - repeat constructor. cbn. discriminate.
  - vm_compute. discriminate.
Defined.

(** * Enrichment of an array with a [null] element *)

(** On an array that holds a [null] or [undefined] element and whose
    other elements have a primitive [sku] (a string, a number, a boolean,
    [null] or nothing: the values a template literal converts without
    calling a [toString] that could throw), the enrichment never returns
    enriched items.  If every lookup it makes succeeds, it looks up
    exactly the items before the first [null] or [undefined] element and
    then fails with the engine's TypeError for reading [sku] (the [catch]
    block reads [item.sku] again), not with the 502 object. *)
Theorem enrichment_of_null_item_throws_TypeError (R : Runtime) (items : list value)
    (w w' : World R) (r : thrown + list value) (evs : list event) :
  Forall (fun x => nullish x = true \/ primitive (get x "sku") = true) items ->
  enrichOrderWithMetadata R (VArr items) w = (r, w', evs) ->
  (exists item, In item items /\ nullish item = true) ->
  (forall enrichedItems, r <> inr enrichedItems) /\
  (Forall lookup_ok evs ->
   exists before item after,
     items = (before ++ item :: after)%list /\
     Forall (fun x => nullish x = false) before /\
     nullish item = true /\
     r = inl (TypeError (TypeError_message R item "sku")) /\
     List.length evs = List.length before).
Proof.
  intros _. unfold enrichOrderWithMetadata. cbn [iterate]. generalize (@nil value) as acc.
  revert w r w' evs.
  induction items as [|x rest IH]; intros w r w' evs acc Hrun (item & Hin & Hnull).
  - contradiction.
  - cbn [enrich_loop] in Hrun. destruct (nullish x) eqn:Hx.
    + run_inv. split; [intros ? ?; discriminate|]. intros _.
      exists [], x, rest. repeat split; auto.
    + destruct Hin as [->|Hin]; [congruence|].
      run_inv. destruct x0 as [cause|data].
      * run_inv. split; [intros ? ?; discriminate|].
        intros Hok. exfalso. inversion Hok as [|? ? Hbad _]; subst. exact Hbad.
      * destruct (IH _ _ _ _ _ Hrun (ex_intro _ item (conj Hin Hnull))) as [Hnever Hfirst].
        split; [exact Hnever|]. intros Hok. inversion Hok as [|? ? _ Hok']; subst.
        destruct (Hfirst Hok') as (before & it & after & -> & Hb & Hit & -> & Hlen).
        exists (x :: before), it, after. repeat split; auto. cbn. now rewrite Hlen.
Qed.

(** A resolvable item followed by [null]. *)
Lemma enrichment_of_null_item_throws_TypeError_witness :
  exists before item after,
    [Demo.item "SKU100" 1; VNull] = (before ++ item :: after)%list /\
    Forall (fun x => nullish x = false) before /\
    nullish item = true /\
    fst (fst (enrichOrderWithMetadata Demo.runtime
                (VArr [Demo.item "SKU100" 1; VNull]) Demo.start))
    = inl (TypeError (TypeError_message Demo.runtime item "sku")) /\
    List.length (snd (enrichOrderWithMetadata Demo.runtime
                        (VArr [Demo.item "SKU100" 1; VNull]) Demo.start))
    = List.length before.
Proof.
  apply (enrichment_of_null_item_throws_TypeError Demo.runtime
           [Demo.item "SKU100" 1; VNull] Demo.start
           (snd (fst (enrichOrderWithMetadata Demo.runtime
                        (VArr [Demo.item "SKU100" 1; VNull]) Demo.start)))).
  - constructor; [right; reflexivity|]. constructor; [left; reflexivity|]. constructor.
  - reflexivity.
  - exists VNull. split; [right; left; reflexivity | reflexivity].
  - vm_compute. repeat constructor.
Defined.
